(** * text-concepts-evaluator: the scoring strategies

    A shallow embedding of [text_evaluator/strategy.py], and the properties
    of the strategy family stated over it.

    Conventions of the embedding.
    - A Python [str] is the list of its code points ([list N]).
    - A number (an annotation count, a fraction, a threshold) is a rational
      [Q]: Python's [int] embeds exactly and [/] is exact division, so the
      rounding of binary floating point is not part of the model.  Division
      by zero raises, as it does in Python for [int] and [float] alike.
    - The outer [statistics] dict is a [gmap]; the inner concept -> count
      dict is an association list in insertion order, since the strategies
      depend on the iteration order of [dict.items()].  Its keys are
      pairwise distinct, as in every Python dict.
    - A call that raises is a value [Err e] of the [result] type. *)

From Stdlib Require Import QArith Qpower.
From Stdlib Require Import String Ascii.
From Stdlib Require Import Sorted Permutation.
From stdpp Require Import gmap list.

Local Open Scope Q_scope.

(** ** Python values *)

Definition char := N.
Definition str := list char.

Definition of_string (s : string) : str :=
  List.map N_of_ascii (list_ascii_of_string s).

(** The exceptions the strategies can raise. *)
Inductive exn :=
| KeyError
| ZeroDivisionError
| TypeError
| AttributeError.

Inductive result (A : Type) :=
| Ok (a : A)
| Err (e : exn).
Arguments Ok {A} a.
Arguments Err {A} e.

(** Sequencing: the first exception raised aborts the rest. *)
#[global] Instance result_ret : MRet result := fun A a => Ok a.
#[global] Instance result_bind : MBind result := fun A B f m =>
  match m with
  | Ok a => f a
  | Err e => Err e
  end.

(** A dict comprehension evaluates its value expression item by item, in
    iteration order, and stops at the first one that raises. *)
Fixpoint mapM {A B} (f : A -> result B) (l : list A) : result (list B) :=
  match l with
  | [] => Ok []
  | a :: l' => b ← f a; bs ← mapM f l'; Ok (b :: bs)
  end.

(** [a / b] *)
Definition py_div (a b : Q) : result Q :=
  if Qeq_bool b 0 then Err ZeroDivisionError else Ok (a / b).

(** [pow(a, e)] for an integral exponent [e]. *)
Definition py_pow (a : Q) (e : Z) : result Q :=
  if (e <? 0)%Z && Qeq_bool a 0 then Err ZeroDivisionError
  else Ok (Qpower a e).

(** [sum(values)] *)
Definition py_sum (l : list Q) : Q := fold_left Qplus l 0.

(** [name in text] on strings: [name] occurs as a contiguous substring. *)
Fixpoint startswith (s p : str) {struct p} : bool :=
  match p, s with
  | [], _ => true
  | a :: p', b :: s' => (a =? b)%N && startswith s' p'
  | _ :: _, [] => false
  end.

Fixpoint str_contains (s needle : str) : bool :=
  startswith s needle ||
  match s with
  | [] => false
  | _ :: s' => str_contains s' needle
  end.

(** [l[:stop]] *)
Definition slice_to {A} (stop : Z) (l : list A) : list A :=
  if (stop <? 0)%Z then take (Z.to_nat (Z.of_nat (length l) + stop)) l
  else take (Z.to_nat stop) l.

(** A dict with string keys and numeric values, in insertion order. *)
Definition dict := list (str * Q).

(** [{name: f(name, count) for name, count in d.items()}] *)
Definition dict_comprehension (f : str -> Q -> result Q) (d : dict)
    : result dict :=
  mapM (fun item => value ← f (fst item) (snd item); Ok (fst item, value)) d.

(** [sorted(d.items(), key=lambda item: item[1], reverse=True)]: the sort is
    stable, and [reverse=True] keeps the original order of items with equal
    keys. *)
Fixpoint insert_desc (x : str * Q) (l : list (str * Q)) : list (str * Q) :=
  match l with
  | [] => [x]
  | y :: l' =>
      if Qle_bool (snd y) (snd x) then x :: y :: l'
      else y :: insert_desc x l'
  end.

Fixpoint sorted_desc (l : list (str * Q)) : list (str * Q) :=
  match l with
  | [] => []
  | x :: l' => insert_desc x (sorted_desc l')
  end.

(** ** The data classes *)

Record DocumentMetadata := {
  statistics : gmap str dict;
  text : str
}.

Record Result := { concepts : list str }.

(** [d[key]] on the statistics dict. *)
Definition getitem (d : gmap str dict) (key : str) : result dict :=
  match d !! key with
  | Some v => Ok v
  | None => Err KeyError
  end.

(** ** Regular expressions

    The two patterns of [ConceptFractionInAllWordsStrategy], as backtracking
    matchers in continuation-passing style: a matcher takes the input that is
    left and the continuation matching the rest of the pattern, and answers
    with the input left after the first complete match in the order
    in which [re] tries the alternatives (a greedy repetition the longest
    run first, a lazy one the shortest first). *)

Definition cont := str -> option str.

(** [.] without [re.DOTALL]: every character but the line feed. *)
Definition is_dot (c : char) : bool := negb (c =? 10)%N.

(** [\s] in a [str] pattern: the code points on which [str.isspace()]
    holds. *)
Definition is_space (c : char) : bool :=
  ((9 <=? c) && (c <=? 13) || (28 <=? c) && (c <=? 32) ||
   (c =? 133) || (c =? 160) || (c =? 5760) ||
   (8192 <=? c) && (c <=? 8202) ||
   (c =? 8232) || (c =? 8233) || (c =? 8239) || (c =? 8287) ||
   (c =? 12288))%N.

(** A literal. *)
Definition lit (p : str) (k : cont) : cont := fun s =>
  if startswith s p then k (drop (length p) s) else None.

(** [.*] *)
Fixpoint dot_star_greedy (k : cont) (s : str) : option str :=
  match s with
  | c :: s' =>
      if is_dot c then
        match dot_star_greedy k s' with
        | Some r => Some r
        | None => k s
        end
      else k s
  | [] => k s
  end.

(** [.+] *)
Definition dot_plus_greedy (k : cont) : cont := fun s =>
  match s with
  | c :: s' => if is_dot c then dot_star_greedy k s' else None
  | [] => None
  end.

(** [.*?] *)
Fixpoint dot_star_lazy (k : cont) (s : str) : option str :=
  match k s with
  | Some r => Some r
  | None =>
      match s with
      | c :: s' => if is_dot c then dot_star_lazy k s' else None
      | [] => None
      end
  end.

(** [.+?] *)
Definition dot_plus_lazy (k : cont) : cont := fun s =>
  match s with
  | c :: s' => if is_dot c then dot_star_lazy k s' else None
  | [] => None
  end.

(** [\s] *)
Definition space (k : cont) : cont := fun s =>
  match s with
  | c :: s' => if is_space c then k s' else None
  | [] => None
  end.

(** [a|b] *)
Definition alt (a b : cont) : cont := fun s =>
  match a s with
  | Some r => Some r
  | None => b s
  end.

(** [Pattern.sub(repl, string, count)] for a pattern that matches no empty
    string: scan from the left, replace each match by [repl] and go on
    behind it; [limit] is the number of replacements still allowed ([None]:
    no bound) and [skip] the number of characters of the last match that are
    still to be passed over. *)
Fixpoint sub_from (re : cont) (repl : str) (limit : option nat) (skip : nat)
    (s : str) : str :=
  match s with
  | [] => []
  | c :: s' =>
      match skip with
      | S n => sub_from re repl limit n s'
      | O =>
          match limit with
          | Some O => c :: sub_from re repl limit 0 s'
          | _ =>
              match re s with
              | Some rest =>
                  repl ++ sub_from re repl (pred <$> limit)
                            (length s' - length rest) s'
              | None => c :: sub_from re repl limit 0 s'
              end
          end
      end
  end.

(** [count=0] replaces every match. *)
Definition re_sub (re : cont) (repl s : str) (count : nat) : str :=
  sub_from re repl (match count with O => None | _ => Some count end) 0 s.

(** [Pattern.split(string)] for a pattern without groups that matches no
    empty string: the pieces between the matches, empty ones included. *)
Fixpoint split_from (re : cont) (skip : nat) (s : str) : list str :=
  match s with
  | [] => [[]]
  | c :: s' =>
      match skip with
      | S n => split_from re n s'
      | O =>
          match re s with
          | Some rest => [] :: split_from re (length s' - length rest) s'
          | None =>
              match split_from re 0 s' with
              | p :: ps => (c :: p) :: ps
              | [] => [[c]]
              end
          end
      end
  end.

Definition re_split (re : cont) (s : str) : list str := split_from re 0 s.

(** The value of the flag [re.DOTALL]. *)
Definition re_DOTALL : nat := 16.

(** A string is true when it is not empty. *)
Definition truthy (w : str) : bool :=
  match w with
  | [] => false
  | _ => true
  end.

(** ** The strategies *)

Module CountStatisticsStrategy.

Definition evaluated_statistics_name : str := of_string "count".

End CountStatisticsStrategy.

Module FractionEvaluationStrategy.

(** The instance attributes set by [__init__]. *)
Record self := {
  number_of_concepts : Z;
  min_fraction : option Q
}.

Definition __init__ (number_of_concepts : option Z)
    (min_fraction : option Q) : self :=
  {| number_of_concepts := default 10%Z number_of_concepts;
     min_fraction := min_fraction |}.

Definition _filter_concepts (s : self) (evaluated_concept_statistics : dict)
    : dict :=
  List.filter
    (fun item =>
       match min_fraction s with
       | None => true
       | Some m => Qle_bool m (snd item)
       end)
    evaluated_concept_statistics.

Definition _create_result (s : self) (evaluated_concept_statistics : dict)
    : Result :=
  let filtered_concepts := _filter_concepts s evaluated_concept_statistics in
  let sorted_concepts := List.map fst (sorted_desc filtered_concepts) in
  {| concepts := slice_to (number_of_concepts s + 1) sorted_concepts |}.

(** [evaluate_metadata] is abstract in the base class. *)
Definition parse (s : self)
    (evaluate_metadata : DocumentMetadata -> result dict)
    (document_metadata : DocumentMetadata) : result Result :=
  evaluated_concept_statistics ← evaluate_metadata document_metadata;
  Ok (_create_result s evaluated_concept_statistics).

End FractionEvaluationStrategy.

Module ConceptFractionInAllWordsStrategy.

(** [<em.+>(.+?)</em>] *)
Definition re_extract_annotated_words : cont :=
  lit (of_string "<em")
    (dot_plus_greedy
       (lit (of_string ">")
          (dot_plus_lazy (lit (of_string "</em>") Some)))).

(** [<.*?>|\s] *)
Definition re_word_split : cont :=
  alt (lit (of_string "<") (dot_star_lazy (lit (of_string ">") Some)))
      (space Some).

(** The text after the substitution: the third positional argument of
    [Pattern.sub] is [count], so [re.DOTALL] bounds the number of
    replacements and sets no flag. *)
Definition replaced_text (text : str) : str :=
  re_sub re_extract_annotated_words (of_string "foo") text re_DOTALL.

(** The words the set comprehension iterates over, in order. *)
Definition tokens (text : str) : list str :=
  List.filter truthy (re_split re_word_split (replaced_text text)).

Definition words (text : str) : gset str := list_to_set (tokens text).

Definition word_count (text : str) : nat := size (words text).

Definition evaluate_metadata (document_metadata : DocumentMetadata)
    : result dict :=
  let word_count := word_count (text document_metadata) in
  counts ← getitem (statistics document_metadata)
             CountStatisticsStrategy.evaluated_statistics_name;
  dict_comprehension
    (fun concept_name count => py_div count (inject_Z (Z.of_nat word_count)))
    counts.

Definition parse (s : FractionEvaluationStrategy.self) :=
  FractionEvaluationStrategy.parse s evaluate_metadata.

End ConceptFractionInAllWordsStrategy.

Module ConceptFractionInAllConceptsStrategy.

Definition evaluate_metadata (document_metadata : DocumentMetadata)
    : result dict :=
  counts ← getitem (statistics document_metadata)
             CountStatisticsStrategy.evaluated_statistics_name;
  let annotation_count := py_sum (List.map snd counts) in
  dict_comprehension
    (fun concept_name count => py_div count annotation_count)
    counts.

Definition parse (s : FractionEvaluationStrategy.self) :=
  FractionEvaluationStrategy.parse s evaluate_metadata.

End ConceptFractionInAllConceptsStrategy.

Module ConceptFractionFilteredByFractionAverageStrategy.

Definition evaluate_metadata (document_metadata : DocumentMetadata)
    : result dict :=
  counts ← getitem (statistics document_metadata)
             CountStatisticsStrategy.evaluated_statistics_name;
  dict_comprehension (fun concept_name count => Ok count) counts.

Definition _calculate_concept_fraction_average
    (document_metadata : DocumentMetadata) : result Q :=
  values ← getitem (statistics document_metadata)
             CountStatisticsStrategy.evaluated_statistics_name;
  let annotation_count := py_sum (List.map snd values) in
  counts ← getitem (statistics document_metadata)
             CountStatisticsStrategy.evaluated_statistics_name;
  let number_of_concepts := length counts in
  if Nat.eqb number_of_concepts 0 then Ok 0
  else py_div annotation_count (inject_Z (Z.of_nat number_of_concepts)).

Definition _create_result (evaluated_concept_statistics : dict) : Result :=
  {| concepts := List.map fst (sorted_desc evaluated_concept_statistics) |}.

(** A call [self._create_result(...)]: the method has one required
    parameter besides [self]; binding the arguments fails with [TypeError]
    unless exactly one is passed, before the body runs. *)
Definition call__create_result (args : list dict) : result Result :=
  match args with
  | [evaluated_concept_statistics] =>
      Ok (_create_result evaluated_concept_statistics)
  | _ => Err TypeError
  end.

Definition _filter_concepts (evaluated_concept_statistics : dict)
    (acceptance_threshold : Q) : dict :=
  List.filter (fun item => Qle_bool acceptance_threshold (snd item))
    evaluated_concept_statistics.

(** [parse], with the [evaluate_metadata] of the class of [self]. *)
Definition parse_with (evaluate_metadata : DocumentMetadata -> result dict)
    (document_metadata : DocumentMetadata) : result Result :=
  evaluated_concept_statistics ← evaluate_metadata document_metadata;
  avg_concept_fraction ← _calculate_concept_fraction_average document_metadata;
  if Qeq_bool avg_concept_fraction 0 then call__create_result []
  else
    let filtered_concepts :=
      _filter_concepts evaluated_concept_statistics avg_concept_fraction in
    call__create_result [filtered_concepts].

Definition parse := parse_with evaluate_metadata.

End ConceptFractionFilteredByFractionAverageStrategy.

Module ConceptFilteredByFractionAverageMentionsBoostedStrategy.

(** The class attribute, which a deployment may override; exponents with an
    integral value are modelled. *)
Record self := { MENTIONED_CONCEPT_BOOST : Z }.

Definition default_self : self := {| MENTIONED_CONCEPT_BOOST := 2 |}.

Definition concept_value (s : self) (document_metadata : DocumentMetadata)
    (concept_name : str) (concept_count : Q) : result Q :=
  if str_contains (text document_metadata) concept_name
  then py_pow concept_count (MENTIONED_CONCEPT_BOOST s)
  else Ok concept_count.

Definition evaluate_metadata (s : self) (document_metadata : DocumentMetadata)
    : result dict :=
  counts ← getitem (statistics document_metadata)
             CountStatisticsStrategy.evaluated_statistics_name;
  dict_comprehension (concept_value s document_metadata) counts.

Definition parse (s : self) :=
  ConceptFractionFilteredByFractionAverageStrategy.parse_with
    (evaluate_metadata s).

End ConceptFilteredByFractionAverageMentionsBoostedStrategy.

(** The strategy family behind the [Strategy] protocol. *)
Inductive Strategy :=
| InAllWords (s : FractionEvaluationStrategy.self)
| InAllConcepts (s : FractionEvaluationStrategy.self)
| FilteredByFractionAverage
| MentionsBoosted
    (s : ConceptFilteredByFractionAverageMentionsBoostedStrategy.self).

Definition parse (strategy : Strategy) : DocumentMetadata -> result Result :=
  match strategy with
  | InAllWords s => ConceptFractionInAllWordsStrategy.parse s
  | InAllConcepts s => ConceptFractionInAllConceptsStrategy.parse s
  | FilteredByFractionAverage =>
      ConceptFractionFilteredByFractionAverageStrategy.parse
  | MentionsBoosted s =>
      ConceptFilteredByFractionAverageMentionsBoostedStrategy.parse s
  end.

(** ** The documents of the test suite *)

Definition uri (n : string) : str :=
  of_string ("https://www.biofid.de/ontology/" ++ n).

Definition count_stats (counts : dict) : gmap str dict :=
  {[ CountStatisticsStrategy.evaluated_statistics_name := counts ]}.

(** [Waschbär] *)
Definition Waschbaer : str := of_string "Waschb" ++ [228%N] ++ of_string "r".

Definition annotated_text (surface : str) : str :=
  of_string "<sentence id='12345'>Das ist ein annotierter Text.</sentence><sentence>Darin kommt auch ein <em class='animal_fauna' biofid-uri-0='https://www.biofid.de/ontology/2'>"
  ++ surface ++ of_string "</em> vor.</sentence>".

Definition counts_2_1_3_4_5 : dict :=
  [(uri "2", 2); (uri "1", 1); (uri "3", 3); (uri "4", 4); (uri "5", 5)].

Definition single_annotation : DocumentMetadata :=
  {| statistics := count_stats [(uri "2", 1)];
     text := annotated_text Waschbaer |}.

Definition multi_token_annotation : DocumentMetadata :=
  {| statistics := count_stats [(uri "2", 1)];
     text := annotated_text (of_string "Procyon lotor") |}.

Definition two_concepts : DocumentMetadata :=
  {| statistics := count_stats [(uri "2", 2); (uri "1", 1)];
     text := annotated_text Waschbaer |}.

Definition five_concepts : DocumentMetadata :=
  {| statistics := count_stats counts_2_1_3_4_5; text := [] |}.

Definition same_count : DocumentMetadata :=
  {| statistics := count_stats [(uri "2", 1); (uri "1", 1); (uri "3", 1)];
     text := [] |}.

Definition no_concepts : DocumentMetadata :=
  {| statistics := count_stats []; text := [] |}.

Definition mentioned_text : str :=
  of_string "<sentence id='12345'>Das ist ein annotierter Text.</sentence><sentence>Darin kommt ein <em class='animal_fauna' biofid-uri-0='https://www.biofid.de/ontology/2'>"
  ++ Waschbaer ++ of_string "</em> vor.</sentence>".

Definition five_concepts_mentioned : DocumentMetadata :=
  {| statistics := count_stats counts_2_1_3_4_5; text := mentioned_text |}.

Definition fraction_self (min_fraction : option Q)
    : FractionEvaluationStrategy.self :=
  FractionEvaluationStrategy.__init__ None min_fraction.

(** ** Notions used in the statements *)

(** The mean of the raw annotation counts. *)
Definition raw_average (counts : dict) : Q :=
  py_sum (List.map snd counts) / inject_Z (Z.of_nat (length counts)).

(** The score of a concept in the boosted strategy: the count raised to the
    boost when the URI occurs in the text, the count otherwise. *)
Definition boosted_score
    (s : ConceptFilteredByFractionAverageMentionsBoostedStrategy.self)
    (text concept_name : str) (count : Q) : Q :=
  if str_contains text concept_name
  then Qpower count
         (ConceptFilteredByFractionAverageMentionsBoostedStrategy.MENTIONED_CONCEPT_BOOST s)
  else count.

(** The order of a ranking: [x] before [y] when the value of [x] is at least
    that of [y]. *)
Definition ge_value (x y : str * Q) : Prop := snd y <= snd x.

(** A concept passes [min_fraction]. *)
Definition reaches (min_fraction : option Q) (score : Q) : Prop :=
  forall m, min_fraction = Some m -> m <= score.

Definition zero_count : DocumentMetadata :=
  {| statistics := count_stats [(uri "1", 0)]; text := [] |}.

(** The instance with the default boost. *)
Definition default_boost :=
  ConceptFilteredByFractionAverageMentionsBoostedStrategy.default_self.

(** ** The strategies over an explicit store

    The same methods with the objects a call of [parse] can reach held in a
    store: the strategy instance [self] and the [DocumentMetadata] passed
    in.  A method is a function from the store to an outcome and the store
    it leaves behind; reading an attribute reads the store, and the
    containers a method builds (the dicts of the comprehensions, the sorted
    list, the slice) are fresh values. *)

Record store := {
  self_object : Strategy;
  document_object : DocumentMetadata
}.

Definition M (A : Type) : Type := store -> result A * store.

#[global] Instance M_ret : MRet M := fun A a st => (Ok a, st).
#[global] Instance M_bind : MBind M := fun A B f m st =>
  match m st with
  | (Ok a, st') => f a st'
  | (Err e, st') => (Err e, st')
  end.

Definition lift {A} (r : result A) : M A := fun st => (r, st).

Module Stateful.

(** [self.number_of_concepts] *)
Definition number_of_concepts : M Z := fun st =>
  match self_object st with
  | InAllWords s | InAllConcepts s =>
      (Ok (FractionEvaluationStrategy.number_of_concepts s), st)
  | _ => (Err AttributeError, st)
  end.

(** [self.min_fraction] *)
Definition min_fraction : M (option Q) := fun st =>
  match self_object st with
  | InAllWords s | InAllConcepts s =>
      (Ok (FractionEvaluationStrategy.min_fraction s), st)
  | _ => (Err AttributeError, st)
  end.

(** [self.MENTIONED_CONCEPT_BOOST] *)
Definition MENTIONED_CONCEPT_BOOST : M Z := fun st =>
  match self_object st with
  | MentionsBoosted s =>
      (Ok (ConceptFilteredByFractionAverageMentionsBoostedStrategy.MENTIONED_CONCEPT_BOOST s),
       st)
  | _ => (Err AttributeError, st)
  end.

(** [document_metadata.statistics[self.evaluated_statistics_name]] *)
Definition count_statistics : M dict := fun st =>
  (getitem (statistics (document_object st))
     CountStatisticsStrategy.evaluated_statistics_name, st).

(** [document_metadata.text] *)
Definition document_text : M str := fun st =>
  (Ok (text (document_object st)), st).

Definition fraction__filter_concepts (evaluated_concept_statistics : dict)
    : M dict :=
  m ← min_fraction;
  mret
    (List.filter
       (fun item =>
          match m with
          | None => true
          | Some m => Qle_bool m (snd item)
          end)
       evaluated_concept_statistics).

Definition fraction__create_result (evaluated_concept_statistics : dict)
    : M Result :=
  filtered_concepts ← fraction__filter_concepts evaluated_concept_statistics;
  let sorted_concepts := List.map fst (sorted_desc filtered_concepts) in
  n ← number_of_concepts;
  mret {| concepts := slice_to (n + 1) sorted_concepts |}.

Definition in_all_words_evaluate_metadata : M dict :=
  text ← document_text;
  let text := ConceptFractionInAllWordsStrategy.replaced_text text in
  let words : gset str :=
    list_to_set
      (List.filter truthy
         (re_split ConceptFractionInAllWordsStrategy.re_word_split text)) in
  let word_count := size words in
  counts ← count_statistics;
  lift (dict_comprehension
          (fun concept_name count =>
             py_div count (inject_Z (Z.of_nat word_count)))
          counts).

Definition in_all_concepts_evaluate_metadata : M dict :=
  values ← count_statistics;
  let annotation_count := py_sum (List.map snd values) in
  counts ← count_statistics;
  lift (dict_comprehension
          (fun concept_name count => py_div count annotation_count)
          counts).

Definition average_evaluate_metadata : M dict :=
  counts ← count_statistics;
  lift (dict_comprehension (fun concept_name count => Ok count) counts).

Definition boosted_evaluate_metadata : M dict :=
  counts ← count_statistics;
  text ← document_text;
  boost ← MENTIONED_CONCEPT_BOOST;
  lift (dict_comprehension
          (fun concept_name concept_count =>
             if str_contains text concept_name
             then py_pow concept_count boost
             else Ok concept_count)
          counts).

(** [self.evaluate_metadata(document_metadata)]: the method of the class of
    [self]. *)
Definition evaluate_metadata : M dict := fun st =>
  match self_object st with
  | InAllWords _ => in_all_words_evaluate_metadata st
  | InAllConcepts _ => in_all_concepts_evaluate_metadata st
  | FilteredByFractionAverage => average_evaluate_metadata st
  | MentionsBoosted _ => boosted_evaluate_metadata st
  end.

Definition fraction_parse : M Result :=
  evaluated_concept_statistics ← evaluate_metadata;
  fraction__create_result evaluated_concept_statistics.

Definition _calculate_concept_fraction_average : M Q :=
  values ← count_statistics;
  let annotation_count := py_sum (List.map snd values) in
  counts ← count_statistics;
  let number_of_concepts := length counts in
  if Nat.eqb number_of_concepts 0 then mret 0
  else lift (py_div annotation_count
               (inject_Z (Z.of_nat number_of_concepts))).

Definition average_parse : M Result :=
  evaluated_concept_statistics ← evaluate_metadata;
  avg_concept_fraction ← _calculate_concept_fraction_average;
  if Qeq_bool avg_concept_fraction 0
  then
    lift (ConceptFractionFilteredByFractionAverageStrategy.call__create_result
            [])
  else
    let filtered_concepts :=
      ConceptFractionFilteredByFractionAverageStrategy._filter_concepts
        evaluated_concept_statistics avg_concept_fraction in
    lift (ConceptFractionFilteredByFractionAverageStrategy.call__create_result
            [filtered_concepts]).

(** [self.parse(document_metadata)] *)
Definition parse : M Result := fun st =>
  match self_object st with
  | InAllWords _ | InAllConcepts _ => fraction_parse st
  | FilteredByFractionAverage | MentionsBoosted _ => average_parse st
  end.

End Stateful.

(** ** The tokenization in the words of the specification

    An annotated span is an element [<em ...>surface</em>]: the tag ends at
    its first [>] and the element at the first [</em>] behind a non-empty
    surface text.  Every span is collapsed into the placeholder; the tokens
    are what is left between markup tags and whitespace, empty pieces
    dropped. *)

Definition annotated_span : cont :=
  lit (of_string "<em")
    (dot_star_lazy
       (lit (of_string ">")
          (dot_plus_lazy (lit (of_string "</em>") Some)))).

Definition spec_collapse (text : str) : str :=
  re_sub annotated_span (of_string "foo") text 0.

Definition spec_tokens (text : str) : list str :=
  List.filter truthy
    (re_split ConceptFractionInAllWordsStrategy.re_word_split
       (spec_collapse text)).

(** The count of the tokens. *)
Definition spec_token_count (text : str) : nat := length (spec_tokens text).

(** The count of the distinct tokens. *)
Definition distinct_token_count (text : str) : nat :=
  length (remove_dups (spec_tokens text)).

(** A matcher finds nothing at any position of [s]. *)
Definition fails (k : cont) (s : str) : Prop :=
  forall t, t `suffix_of` s -> k t = None.

(** Every match of [k] leaves at least [n] characters fewer than it was
    given. *)
Definition shrinks (n : nat) (k : cont) : Prop :=
  forall s rest, k s = Some rest -> (length rest + n <= length s)%nat.

(** [text] has one annotated span, [<em attrs>surface</em>] between [pre]
    and [post]: no [<em] starts in [pre], the attributes and the surface
    text are non-empty and on one line, the attributes hold no [>], the
    surface text neither [<] nor [>], and no [</em>] occurs in [post]. *)
Record single_annotated_span (text pre attrs surface post : str) : Prop := {
  span_text :
    text = pre ++ of_string "<em" ++ attrs ++ of_string ">" ++ surface
           ++ of_string "</em>" ++ post;
  span_first : str_contains pre (of_string "<em") = false;
  span_attrs : attrs <> [];
  span_attrs_chars :
    forallb (fun c => is_dot c && negb (c =? 62)%N) attrs = true;
  span_surface : surface <> [];
  span_surface_chars :
    forallb (fun c => is_dot c && (negb (c =? 60)%N && negb (c =? 62)%N))
      surface = true;
  span_last : str_contains post (of_string "</em>") = false
}.

(** [text] has no annotated span, or one. *)
Inductive at_most_one_span (text : str) : Prop :=
| no_span :
    str_contains text (of_string "</em>") = false -> at_most_one_span text
| one_span pre attrs surface post :
    single_annotated_span text pre attrs surface post ->
    at_most_one_span text.

Definition two_spans_text : str :=
  of_string "<em id='1'>Procyon</em> und <em id='2'>Lotor</em>".

Definition two_spans : DocumentMetadata :=
  {| statistics := count_stats [(uri "1", 1)]; text := two_spans_text |}.

(** Replace the string literals by their code points. *)
Ltac literals :=
  repeat match goal with
    | |- context [of_string ?x] =>
        let v := eval vm_compute in (of_string x) in
        change (of_string x) with v
    | H : context [of_string ?x] |- _ =>
        let v := eval vm_compute in (of_string x) in
        change (of_string x) with v in H
    end.

(** ** The evaluator ([text_evaluator/evaluator.py]) *)

Module TextConceptEvaluator.

(** The metadata dict handed to the evaluator, as far as the evaluator reads
    it: the value under the key ['statistics'] and the value under the key
    ['fulltext'], each present or not. *)
Record metadata := {
  statistics_item : option (gmap str dict);
  fulltext_item : option str
}.

(** [metadata[key]] *)
Definition metadata_getitem {A} (item : option A) : result A :=
  match item with
  | Some v => Ok v
  | None => Err KeyError
  end.

Definition metadata2object (metadata : metadata) : result DocumentMetadata :=
  statistics ← metadata_getitem (statistics_item metadata);
  text ← metadata_getitem (fulltext_item metadata);
  Ok {| statistics := statistics; text := text |}.

(** [self.strategy] is any object with a [parse] method. *)
Definition get_concepts_from_text
    (strategy_parse : DocumentMetadata -> result Result)
    (document_json_metadata : metadata) : result (list str) :=
  document_metadata ← metadata2object document_json_metadata;
  result ← strategy_parse document_metadata;
  Ok (concepts result).

End TextConceptEvaluator.

(** ** Further notions used in the statements *)

(** The item of a dict comprehension that divides by [k]. *)
Definition scaled (k : Q) (item : str * Q) : str * Q :=
  (fst item, snd item / k).

(** The items of value [q]. *)
Definition of_value (q : Q) (d : dict) : dict :=
  List.filter (fun item => Qeq_bool (snd item) q) d.

(** The items of value at least [m]. *)
Definition at_least (m : Q) (d : dict) : dict :=
  List.filter (fun item => Qle_bool m (snd item)) d.


(** A line that consists of one annotated span, [<em attrs>surface</em>]
    and a line feed. *)
Definition span_line (span : str * str) : str :=
  of_string "<em" ++ fst span ++ of_string ">" ++ snd span
  ++ of_string "</em>" ++ [10%N].

(** The attributes and the surface text of a span are non-empty and on one
    line, the attributes hold no [>], the surface text neither [<] nor
    [>]. *)
Definition well_formed_span (span : str * str) : bool :=
  truthy (fst span)
  && forallb (fun c => is_dot c && negb (c =? 62)%N) (fst span)
  && truthy (snd span)
  && forallb (fun c => is_dot c && (negb (c =? 60)%N && negb (c =? 62)%N))
       (snd span).


(** * Properties *)

(** ** The scenarios of [tests/test_strategies.py] *)

Example test_in_all_words_single_annotation :
  parse (InAllWords (fraction_self None)) single_annotation
  = Ok {| concepts := [uri "2"] |}.
Proof. vm_compute. reflexivity. Qed.

Example test_in_all_words_threshold_at_the_edge :
  parse (InAllWords (fraction_self (Some 0.1))) single_annotation
  = Ok {| concepts := [uri "2"] |}.
Proof. vm_compute. reflexivity. Qed.

Example test_in_all_words_threshold_higher :
  parse (InAllWords (fraction_self (Some 0.11))) single_annotation
  = Ok {| concepts := [] |}.
Proof. vm_compute. reflexivity. Qed.

Example test_in_all_words_two_concepts :
  parse (InAllWords (fraction_self None)) two_concepts
  = Ok {| concepts := [uri "2"; uri "1"] |}.
Proof. vm_compute. reflexivity. Qed.

Example test_in_all_words_multi_token :
  parse (InAllWords (fraction_self (Some 0.1))) multi_token_annotation
  = Ok {| concepts := [uri "2"] |}.
Proof. vm_compute. reflexivity. Qed.

Example test_in_all_concepts_default :
  parse (InAllConcepts (fraction_self None)) five_concepts
  = Ok {| concepts := [uri "5"; uri "4"; uri "3"; uri "2"; uri "1"] |}.
Proof. vm_compute. reflexivity. Qed.

Example test_in_all_concepts_threshold_at_the_edge :
  parse (InAllConcepts (fraction_self (Some 0.2))) five_concepts
  = Ok {| concepts := [uri "5"; uri "4"; uri "3"] |}.
Proof. vm_compute. reflexivity. Qed.

Example test_in_all_concepts_threshold_higher :
  parse (InAllConcepts (fraction_self (Some 0.21))) five_concepts
  = Ok {| concepts := [uri "5"; uri "4"] |}.
Proof. vm_compute. reflexivity. Qed.

Example test_average_default :
  parse FilteredByFractionAverage five_concepts
  = Ok {| concepts := [uri "5"; uri "4"; uri "3"] |}.
Proof. vm_compute. reflexivity. Qed.

Example test_average_same_count :
  parse FilteredByFractionAverage same_count
  = Ok {| concepts := [uri "2"; uri "1"; uri "3"] |}.
Proof. vm_compute. reflexivity. Qed.

Example test_boosted_mentioned :
  parse
    (MentionsBoosted
       ConceptFilteredByFractionAverageMentionsBoostedStrategy.default_self)
    five_concepts_mentioned
  = Ok {| concepts := [uri "5"; uri "2"; uri "4"; uri "3"] |}.
Proof. vm_compute. reflexivity. Qed.


(** ** The sort

    [sorted_desc] returns a permutation of its argument that is sorted by
    descending value and keeps the order of the items of equal value: the
    three properties that determine the result of a stable sort. *)

Section Sorting.

Implicit Types (x y : str * Q) (l : list (str * Q)).

Lemma insert_desc_Permutation x l : Permutation (insert_desc x l) (x :: l).
Proof.
  induction l as [|y l IH]; simpl; [reflexivity|].
  destruct (Qle_bool (snd y) (snd x)); [reflexivity|].
  rewrite IH. apply perm_swap.
Qed.

Lemma sorted_desc_Permutation l : Permutation (sorted_desc l) l.
Proof.
  induction l as [|x l IH]; simpl; [reflexivity|].
  rewrite insert_desc_Permutation. now rewrite IH.
Qed.

Lemma sorted_desc_In y l : In y (sorted_desc l) <-> In y l.
Proof.
  split; apply Permutation_in;
    [|symmetry]; apply sorted_desc_Permutation.
Qed.

Lemma sorted_desc_length l : length (sorted_desc l) = length l.
Proof. apply Permutation_length, sorted_desc_Permutation. Qed.

Lemma insert_desc_sorted x l :
  StronglySorted ge_value l -> StronglySorted ge_value (insert_desc x l).
Proof.
  induction 1 as [|y l Hl IH Hy]; simpl.
  - repeat constructor.
  - destruct (Qle_bool (snd y) (snd x)) eqn:E.
    + apply Qle_bool_iff in E.
      constructor; [now constructor|].
      constructor; [exact E|].
      eapply List.Forall_impl; [|exact Hy].
      intros z Hz. unfold ge_value in *. now apply Qle_trans with (snd y).
    + constructor; [exact IH|].
      eapply Permutation_Forall;
        [symmetry; apply insert_desc_Permutation|].
      constructor; [|exact Hy].
      unfold ge_value. apply Qlt_le_weak, Qnot_le_lt.
      intros H. apply Qle_bool_iff in H. congruence.
Qed.

Lemma sorted_desc_sorted l : StronglySorted ge_value (sorted_desc l).
Proof.
  induction l; simpl; [constructor|now apply insert_desc_sorted].
Qed.

Lemma insert_desc_stable q x l :
  List.filter (fun y => Qeq_bool (snd y) q) (insert_desc x l)
  = List.filter (fun y => Qeq_bool (snd y) q) (x :: l).
Proof.
  induction l as [|y l IH]; [reflexivity|].
  cbn [insert_desc].
  destruct (Qle_bool (snd y) (snd x)) eqn:E; [reflexivity|].
  cbn [List.filter] in *. rewrite IH.
  destruct (Qeq_bool (snd y) q) eqn:Ey, (Qeq_bool (snd x) q) eqn:Ex;
    try reflexivity.
  apply Qeq_bool_iff in Ey, Ex.
  assert (Qle_bool (snd y) (snd x) = true); [|congruence].
  apply Qle_bool_iff. rewrite Ey, Ex. apply Qle_refl.
Qed.

Lemma sorted_desc_stable q l :
  List.filter (fun y => Qeq_bool (snd y) q) (sorted_desc l)
  = List.filter (fun y => Qeq_bool (snd y) q) l.
Proof.
  induction l as [|x l IH]; [reflexivity|].
  cbn [sorted_desc]. rewrite insert_desc_stable.
  cbn [List.filter]. now rewrite IH.
Qed.

Lemma sorted_desc_uniform c l :
  Forall (fun y => snd y == c) l -> sorted_desc l = l.
Proof.
  induction 1 as [|x l Hx Hl IH]; [reflexivity|].
  cbn [sorted_desc]. rewrite IH.
  destruct Hl as [|y l Hy Hl]; [reflexivity|].
  cbn [insert_desc].
  assert (Qle_bool (snd y) (snd x) = true) as ->; [|reflexivity].
  apply Qle_bool_iff. rewrite Hx, Hy. apply Qle_refl.
Qed.

End Sorting.

(** ** Slices and dict comprehensions *)

Lemma slice_to_In {A} (stop : Z) (l : list A) x :
  In x (slice_to stop l) -> In x l.
Proof.
  unfold slice_to. intros H.
  destruct (stop <? 0)%Z;
    match type of H with In _ (take ?n _) =>
      rewrite <- (firstn_skipn n l); apply in_or_app; now left
    end.
Qed.

Lemma slice_to_take {A} (stop : Z) (l : list A) :
  exists m, slice_to stop l = take m l.
Proof. unfold slice_to. destruct (stop <? 0)%Z; eauto. Qed.

Lemma slice_to_length {A} (stop : Z) (l : list A) :
  (0 <= stop)%Z -> (Z.of_nat (length (slice_to stop l)) <= stop)%Z.
Proof.
  intros H. unfold slice_to.
  destruct (Z.ltb_spec stop 0); [lia|].
  rewrite length_take. lia.
Qed.

Lemma slice_to_all {A} (stop : Z) (l : list A) :
  (Z.of_nat (length l) <= stop)%Z -> slice_to stop l = l.
Proof.
  intros H. unfold slice_to.
  destruct (Z.ltb_spec stop 0); [lia|].
  apply take_ge. lia.
Qed.

Lemma dict_comprehension_cons f item d :
  dict_comprehension f (item :: d)
  = (value ← f (fst item) (snd item);
     rest ← dict_comprehension f d;
     Ok ((fst item, value) :: rest)).
Proof.
  unfold dict_comprehension. cbn [mapM].
  now destruct (f (fst item) (snd item)).
Qed.

Lemma dict_comprehension_Ok f d d' :
  dict_comprehension f d = Ok d' ->
  Forall2 (fun item item' =>
             fst item' = fst item /\ f (fst item) (snd item) = Ok (snd item'))
          d d'.
Proof.
  revert d'. induction d as [|item d IH]; intros d'.
  - intros [= <-]. constructor.
  - rewrite dict_comprehension_cons.
    destruct (f (fst item) (snd item)) as [value|] eqn:Ef; [|discriminate].
    cbn. destruct (dict_comprehension f d) as [rest|]; [|discriminate].
    cbn. intros [= <-]. constructor; [now split|now apply IH].
Qed.

Lemma dict_comprehension_keys f d d' :
  dict_comprehension f d = Ok d' -> List.map fst d' = List.map fst d.
Proof.
  intros H. apply dict_comprehension_Ok in H.
  induction H as [|item item' d d' [Hk _] _ IH]; [reflexivity|].
  cbn. now rewrite Hk, IH.
Qed.

Lemma dict_comprehension_total (g : str -> Q -> Q) f d :
  (forall item, In item d -> f (fst item) (snd item)
                             = Ok (g (fst item) (snd item))) ->
  dict_comprehension f d
  = Ok (List.map (fun item => (fst item, g (fst item) (snd item))) d).
Proof.
  induction d as [|item d IH]; intros H; [reflexivity|].
  rewrite dict_comprehension_cons, H by (cbn; auto).
  rewrite IH by (intros; apply H; cbn; auto).
  reflexivity.
Qed.

Lemma dict_comprehension_id d :
  dict_comprehension (fun _ count => Ok count) d = Ok d.
Proof.
  rewrite (dict_comprehension_total (fun _ count => count)) by reflexivity.
  f_equal. induction d as [|[] d IH]; cbn; congruence.
Qed.

Lemma dict_comprehension_div_zero den item d :
  Qeq_bool den 0 = true ->
  dict_comprehension (fun _ count => py_div count den) (item :: d)
  = Err ZeroDivisionError.
Proof.
  intros H. rewrite dict_comprehension_cons. unfold py_div. now rewrite H.
Qed.

Lemma dict_comprehension_div den d :
  Qeq_bool den 0 = false ->
  dict_comprehension (fun _ count => py_div count den) d
  = Ok (List.map (fun item => (fst item, snd item / den)) d).
Proof.
  intros H.
  apply (dict_comprehension_total (fun _ count => count / den)).
  intros item _. unfold py_div. now rewrite H.
Qed.

Lemma getitem_Some (d : gmap str dict) key v :
  d !! key = Some v -> getitem d key = Ok v.
Proof. unfold getitem. now intros ->. Qed.

(** ** The fraction-based strategies *)

Lemma fraction_filter_In s d item :
  In item (FractionEvaluationStrategy._filter_concepts s d) <->
  In item d /\
  forall m, FractionEvaluationStrategy.min_fraction s = Some m ->
            m <= snd item.
Proof.
  unfold FractionEvaluationStrategy._filter_concepts.
  rewrite filter_In.
  destruct (FractionEvaluationStrategy.min_fraction s) as [m|].
  - rewrite Qle_bool_iff. split; intros [H1 H2]; split; auto.
    now intros ? [= <-].
  - split; intros [H1 H2]; split; auto; discriminate.
Qed.

Lemma fraction_create_result_In s d u :
  In u (concepts (FractionEvaluationStrategy._create_result s d)) ->
  exists score,
    In (u, score) (FractionEvaluationStrategy._filter_concepts s d).
Proof.
  unfold FractionEvaluationStrategy._create_result. cbn.
  intros H. apply slice_to_In, in_map_iff in H.
  destruct H as ([u' score] & <- & H).
  exists score. cbn. now apply sorted_desc_In.
Qed.

(** C4.  The result of a fraction-based [parse] has at most
    [number_of_concepts + 1] concepts: [_create_result] cuts the ranking at
    index [number_of_concepts + 1], and so does [parse] with any
    [evaluate_metadata], that of [ConceptFractionInAllWordsStrategy] and of
    [ConceptFractionInAllConceptsStrategy] included.  [number_of_concepts]
    is a count: for a Python [int] below [-1] the slice stop is negative
    and counts from the end of the ranking. *)
Theorem fraction_parse_at_most_number_of_concepts_plus_one
    (s : FractionEvaluationStrategy.self)
    (evaluate_metadata : DocumentMetadata -> result dict)
    (document_metadata : DocumentMetadata) (res : Result) :
  (-1 <= FractionEvaluationStrategy.number_of_concepts s)%Z ->
  FractionEvaluationStrategy.parse s evaluate_metadata document_metadata
  = Ok res ->
  (Z.of_nat (length (concepts res))
   <= FractionEvaluationStrategy.number_of_concepts s + 1)%Z.
Proof.
  intros Hn. unfold FractionEvaluationStrategy.parse.
  destruct (evaluate_metadata document_metadata) as [d|]; [|discriminate].
  cbn. intros [= <-]. cbn. apply slice_to_length. lia.
Qed.

Lemma fraction_parse_at_most_number_of_concepts_plus_one_witness :
  (Z.of_nat (length [uri "5"; uri "4"]) <= 1 + 1)%Z.
Proof.
  apply (fraction_parse_at_most_number_of_concepts_plus_one
           {| FractionEvaluationStrategy.number_of_concepts := 1;
              FractionEvaluationStrategy.min_fraction := None |}
           ConceptFractionInAllConceptsStrategy.evaluate_metadata
           five_concepts
           {| concepts := [uri "5"; uri "4"] |}).
  - cbn. lia.
  - vm_compute. reflexivity.
Defined.

(** Below [-1] the bound is lost: with [number_of_concepts = -3] the slice
    is [[:-2]] and three of five concepts are returned. *)
Example fraction_parse_negative_number_of_concepts :
  parse
    (InAllConcepts
       {| FractionEvaluationStrategy.number_of_concepts := -3;
          FractionEvaluationStrategy.min_fraction := None |})
    five_concepts
  = Ok {| concepts := [uri "5"; uri "4"; uri "3"] |}.
Proof. vm_compute. reflexivity. Qed.

Lemma filter_all {A} (f : A -> bool) (l : list A) :
  (forall x, In x l -> f x = true) -> List.filter f l = l.
Proof.
  induction l as [|x l IH]; intros H; [reflexivity|].
  cbn. rewrite H by (cbn; auto).
  rewrite IH; [reflexivity|]. intros; apply H; cbn; auto.
Qed.

Lemma dict_value_unique (d : dict) u v v' :
  NoDup (List.map fst d) -> In (u, v) d -> In (u, v') d -> v = v'.
Proof.
  induction d as [|[u0 v0] d IH]; [contradiction|].
  cbn. intros Hnodup. apply NoDup_cons in Hnodup as [Hnotin Hnodup].
  assert (forall w, In (u0, w) d -> False) as Hfresh.
  { intros w Hw. apply Hnotin, list_elem_of_In, in_map_iff.
    now exists (u0, w). }
  intros [E|H] [E'|H'].
  - congruence.
  - injection E as -> ->. exfalso; eauto.
  - injection E' as -> ->. exfalso; eauto.
  - now apply IH.
Qed.

Lemma StronglySorted_app_In {A} (R : A -> A -> Prop) l1 l2 x y :
  StronglySorted R (l1 ++ l2) -> In x l1 -> In y l2 -> R x y.
Proof.
  induction l1 as [|a l1 IH]; [contradiction|].
  cbn. intros H. apply StronglySorted_inv in H as [Hs Ha].
  intros [->|Hx] Hy.
  - rewrite List.Forall_forall in Ha. apply Ha, in_or_app. now right.
  - now apply IH.
Qed.

Lemma NoDup_filter_keys (f : str * Q -> bool) (d : dict) :
  NoDup (List.map fst d) -> NoDup (List.map fst (List.filter f d)).
Proof.
  induction d as [|item d IH]; [trivial|].
  cbn. intros H. apply NoDup_cons in H as [Hnotin H].
  destruct (f item); [|now apply IH].
  cbn. apply NoDup_cons. split; [|now apply IH].
  intros Hin. apply Hnotin.
  apply list_elem_of_In, in_map_iff in Hin as (item' & E & Hin).
  apply list_elem_of_In, in_map_iff. exists item'.
  apply filter_In in Hin as [Hin _]. now split.
Qed.

(** A prefix of a ranking holds, with a concept, every concept of the
    ranking with a greater score. *)
Lemma ranking_take_closed (m : nat) (ranking : dict) u su v sv :
  StronglySorted ge_value ranking ->
  List.NoDup (List.map fst ranking) ->
  In (u, su) ranking ->
  In (v, sv) ranking ->
  su < sv ->
  In u (take m (List.map fst ranking)) ->
  In v (take m (List.map fst ranking)).
Proof.
  intros Hsorted Hnodup Hu Hv Hlt Htake.
  change (take m (List.map fst ranking))
    with (firstn m (List.map fst ranking)) in *.
  rewrite firstn_map in *.
  apply in_map_iff in Htake as ([u' su'] & E & Htake). cbn in E. subst u'.
  assert (su' = su) as ->.
  { apply (dict_value_unique ranking u); auto.
    - now apply NoDup_ListNoDup.
    - rewrite <- (firstn_skipn m ranking). apply in_or_app. now left. }
  rewrite <- (firstn_skipn m ranking) in Hv, Hsorted.
  apply in_app_or in Hv as [Hv|Hv].
  - apply in_map_iff. now exists (v, sv).
  - exfalso.
    pose proof (StronglySorted_app_In _ _ _ _ _ Hsorted Htake Hv) as Hge.
    unfold ge_value in Hge. cbn in Hge.
    apply (Qlt_not_le _ _ Hlt Hge).
Qed.

(** C5.  For a concept of the evaluated statistics (a dict, so with
    pairwise distinct keys): [_filter_concepts] keeps it exactly when its
    score reaches [min_fraction] (a score equal to [min_fraction] reaches
    it, and every score does when [min_fraction] is [None]); a concept of
    the result always reaches it; and when the cut at
    [number_of_concepts + 1] removes nothing, a concept is in the result
    exactly when it reaches it.  With [min_fraction = None] the filter
    returns its argument.  The result is cut from the top of the ranking:
    with a concept it holds every concept that reaches [min_fraction] with
    a greater score. *)
Theorem fraction_min_fraction_filter
    (s : FractionEvaluationStrategy.self) (d : dict) (u : str) (score : Q) :
  NoDup (List.map fst d) ->
  In (u, score) d ->
  let kept := reaches (FractionEvaluationStrategy.min_fraction s) score in
  let result := concepts (FractionEvaluationStrategy._create_result s d) in
  (In (u, score) (FractionEvaluationStrategy._filter_concepts s d) <-> kept)
  /\ (In u result -> kept)
  /\ ((Z.of_nat (length d)
       <= FractionEvaluationStrategy.number_of_concepts s + 1)%Z ->
      (In u result <-> kept))
  /\ (FractionEvaluationStrategy.min_fraction s = None ->
      FractionEvaluationStrategy._filter_concepts s d = d)
  /\ (forall v score',
        In (v, score') d ->
        reaches (FractionEvaluationStrategy.min_fraction s) score' ->
        score < score' ->
        In u result -> In v result).
Proof.
  intros Hnodup Hin. cbv zeta.
  set (kept := reaches (FractionEvaluationStrategy.min_fraction s) score).
  set (result := concepts (FractionEvaluationStrategy._create_result s d)).
  assert (In (u, score) (FractionEvaluationStrategy._filter_concepts s d)
          <-> kept) as Hfilter.
  { rewrite fraction_filter_In. cbn. unfold kept, reaches. tauto. }
  assert (In u result -> kept) as Hsound.
  { intros H. apply fraction_create_result_In in H as [score' H].
    pose proof H as H'. apply fraction_filter_In in H' as [H' _].
    apply Hfilter.
    now rewrite (dict_value_unique d u score score'). }
  repeat split; try tauto.
  - intros Hk. apply Hfilter in Hk.
    unfold result, FractionEvaluationStrategy._create_result. cbn.
    rewrite slice_to_all.
    + apply in_map_iff. exists (u, score). split; [reflexivity|].
      now apply sorted_desc_In.
    + rewrite length_map, sorted_desc_length.
      etransitivity; [|exact H].
      apply inj_le.
      unfold FractionEvaluationStrategy._filter_concepts.
      apply List.filter_length_le.
  - intros Hnone. unfold FractionEvaluationStrategy._filter_concepts.
    rewrite Hnone. now apply filter_all.
  - intros v score' Hv Hkept Hlt Hu.
    pose proof (Hsound Hu) as Hk. apply Hfilter in Hk.
    assert (In (v, score') (FractionEvaluationStrategy._filter_concepts s d))
      as Hv' by (apply fraction_filter_In; now split).
    apply sorted_desc_In in Hk, Hv'.
    revert Hu. unfold result, FractionEvaluationStrategy._create_result.
    cbn [concepts].
    destruct (slice_to_take
                (FractionEvaluationStrategy.number_of_concepts s + 1)
                (List.map fst
                   (sorted_desc
                      (FractionEvaluationStrategy._filter_concepts s d))))
      as [m ->].
    apply (ranking_take_closed m _ u score v score');
      auto using sorted_desc_sorted.
    eapply Permutation_NoDup;
      [symmetry; apply Permutation_map, sorted_desc_Permutation|].
    now apply NoDup_ListNoDup, NoDup_filter_keys.
Qed.

Lemma fraction_min_fraction_filter_witness :
  let s := fraction_self (Some 0.2) in
  let d := [(uri "2", 0.1); (uri "3", 0.2)] in
  (In (uri "3", 0.2) (FractionEvaluationStrategy._filter_concepts s d)
   <-> reaches (Some 0.2) 0.2)
  /\ (In (uri "3") (concepts (FractionEvaluationStrategy._create_result s d))
      -> reaches (Some 0.2) 0.2).
Proof.
  intros s d.
  destruct (fraction_min_fraction_filter s d (uri "3") 0.2) as (H1 & H2 & _).
  - apply (bool_decide_unpack _). vm_compute. reflexivity.
  - cbn. auto.
  - split; [exact H1|exact H2].
Defined.

(** ** Division by zero in the fraction-based strategies *)

Lemma Qeq_bool_of_nat_zero (n : nat) :
  Qeq_bool (inject_Z (Z.of_nat n)) 0 = true <-> n = 0%nat.
Proof.
  rewrite Qeq_bool_iff. unfold Qeq. cbn. lia.
Qed.

Lemma size_list_to_set_zero (l : list str) :
  size (list_to_set l : gset str) = 0%nat <-> l = [].
Proof.
  split; [|now intros ->].
  intros H. apply size_empty_inv in H.
  destruct l as [|w l]; [reflexivity|].
  exfalso. cbn in H. set_solver.
Qed.

Lemma word_count_zero text :
  ConceptFractionInAllWordsStrategy.word_count text = 0%nat <->
  ConceptFractionInAllWordsStrategy.tokens text = [].
Proof. apply size_list_to_set_zero. Qed.

Lemma in_all_words_evaluate_metadata doc counts :
  statistics doc !! CountStatisticsStrategy.evaluated_statistics_name
  = Some counts ->
  ConceptFractionInAllWordsStrategy.evaluate_metadata doc
  = dict_comprehension
      (fun _ count =>
         py_div count
           (inject_Z
              (Z.of_nat
                 (ConceptFractionInAllWordsStrategy.word_count (text doc)))))
      counts.
Proof.
  intros H. unfold ConceptFractionInAllWordsStrategy.evaluate_metadata.
  now rewrite (getitem_Some _ _ _ H).
Qed.

Lemma in_all_concepts_evaluate_metadata doc counts :
  statistics doc !! CountStatisticsStrategy.evaluated_statistics_name
  = Some counts ->
  ConceptFractionInAllConceptsStrategy.evaluate_metadata doc
  = dict_comprehension
      (fun _ count => py_div count (py_sum (List.map snd counts))) counts.
Proof.
  intros H. unfold ConceptFractionInAllConceptsStrategy.evaluate_metadata.
  now rewrite (getitem_Some _ _ _ H).
Qed.

Lemma fraction_parse_Err s evaluate_metadata doc e :
  FractionEvaluationStrategy.parse s evaluate_metadata doc = Err e <->
  evaluate_metadata doc = Err e.
Proof.
  unfold FractionEvaluationStrategy.parse.
  destruct (evaluate_metadata doc); cbn; split; congruence.
Qed.

Lemma dict_comprehension_div_Err den (d : dict) :
  d <> [] ->
  (dict_comprehension (fun _ count => py_div count den) d
   = Err ZeroDivisionError <-> den == 0).
Proof.
  intros Hd. rewrite <- Qeq_bool_iff.
  destruct (Qeq_bool den 0) eqn:E.
  - destruct d; [contradiction|].
    now rewrite dict_comprehension_div_zero.
  - rewrite dict_comprehension_div by assumption. split; discriminate.
Qed.

(** C8.  With a non-empty "count" mapping, a fraction-based [parse] raises
    [ZeroDivisionError], which nothing catches, exactly when its
    denominator is zero: for [ConceptFractionInAllWordsStrategy] when the
    text has no token, for [ConceptFractionInAllConceptsStrategy] when the
    annotation counts sum to zero. *)
Theorem fraction_parse_zero_division
    (s : FractionEvaluationStrategy.self) (doc : DocumentMetadata)
    (counts : dict) :
  statistics doc !! CountStatisticsStrategy.evaluated_statistics_name
  = Some counts ->
  counts <> [] ->
  (parse (InAllWords s) doc = Err ZeroDivisionError <->
   ConceptFractionInAllWordsStrategy.tokens (text doc) = [])
  /\ (parse (InAllConcepts s) doc = Err ZeroDivisionError <->
      py_sum (List.map snd counts) == 0).
Proof.
  intros Hcounts Hne. split; cbn [parse].
  - unfold ConceptFractionInAllWordsStrategy.parse.
    rewrite fraction_parse_Err,
      (in_all_words_evaluate_metadata _ _ Hcounts),
      dict_comprehension_div_Err by assumption.
    rewrite <- word_count_zero, <- Qeq_bool_of_nat_zero.
    symmetry. apply Qeq_bool_iff.
  - unfold ConceptFractionInAllConceptsStrategy.parse.
    now rewrite fraction_parse_Err,
      (in_all_concepts_evaluate_metadata _ _ Hcounts),
      dict_comprehension_div_Err.
Qed.

Lemma fraction_parse_zero_division_witness :
  (parse (InAllWords (fraction_self None))
     {| statistics := count_stats [(uri "1", 1)];
        text := of_string "<sentence> </sentence>" |}
   = Err ZeroDivisionError <->
   ConceptFractionInAllWordsStrategy.tokens
     (of_string "<sentence> </sentence>") = [])
  /\ (parse (InAllConcepts (fraction_self None))
        {| statistics := count_stats [(uri "1", 1)];
           text := of_string "<sentence> </sentence>" |}
      = Err ZeroDivisionError <->
      py_sum (List.map snd [(uri "1", 1)]) == 0).
Proof.
  apply (fraction_parse_zero_division (fraction_self None)
           {| statistics := count_stats [(uri "1", 1)];
              text := of_string "<sentence> </sentence>" |}
           [(uri "1", 1)]).
  - vm_compute. reflexivity.
  - discriminate.
Defined.

Example in_all_words_no_token :
  parse (InAllWords (fraction_self None))
    {| statistics := count_stats [(uri "1", 1)];
       text := of_string "<sentence> </sentence>" |}
  = Err ZeroDivisionError.
Proof. vm_compute. reflexivity. Qed.

Example in_all_concepts_zero_total :
  parse (InAllConcepts (fraction_self None))
    {| statistics := count_stats [(uri "1", 0); (uri "2", 0)]; text := [] |}
  = Err ZeroDivisionError.
Proof. vm_compute. reflexivity. Qed.

Example in_all_words_no_concept_no_token :
  parse (InAllWords (fraction_self None)) no_concepts
  = Ok {| concepts := [] |}.
Proof. vm_compute. reflexivity. Qed.

(** ** The average-based strategies *)

Lemma average_parse_with evaluate_metadata doc counts evaluated :
  statistics doc !! CountStatisticsStrategy.evaluated_statistics_name
  = Some counts ->
  evaluate_metadata doc = Ok evaluated ->
  ConceptFractionFilteredByFractionAverageStrategy.parse_with
    evaluate_metadata doc
  = match counts with
    | [] => Err TypeError
    | _ =>
        if Qeq_bool (raw_average counts) 0 then Err TypeError
        else Ok {| concepts :=
                     List.map fst
                       (sorted_desc
                          (ConceptFractionFilteredByFractionAverageStrategy._filter_concepts
                             evaluated (raw_average counts))) |}
    end.
Proof.
  intros Hcounts Heval.
  unfold ConceptFractionFilteredByFractionAverageStrategy.parse_with,
    ConceptFractionFilteredByFractionAverageStrategy._calculate_concept_fraction_average.
  rewrite Heval, (getitem_Some _ _ _ Hcounts).
  unfold mbind, result_bind.
  destruct counts as [|item counts]; [reflexivity|].
  change (Nat.eqb (length (item :: counts)) 0) with false.
  cbv iota. unfold py_div.
  destruct (Qeq_bool (inject_Z (Z.of_nat (length (item :: counts)))) 0)
    eqn:E.
  { apply Qeq_bool_of_nat_zero in E. discriminate. }
  fold (raw_average (item :: counts)).
  now destruct (Qeq_bool (raw_average (item :: counts)) 0).
Qed.

Lemma average_evaluate_metadata doc counts :
  statistics doc !! CountStatisticsStrategy.evaluated_statistics_name
  = Some counts ->
  ConceptFractionFilteredByFractionAverageStrategy.evaluate_metadata doc
  = Ok counts.
Proof.
  intros H.
  unfold ConceptFractionFilteredByFractionAverageStrategy.evaluate_metadata.
  rewrite (getitem_Some _ _ _ H). cbn. apply dict_comprehension_id.
Qed.

Lemma boosted_evaluate_metadata s doc counts :
  statistics doc !! CountStatisticsStrategy.evaluated_statistics_name
  = Some counts ->
  ConceptFilteredByFractionAverageMentionsBoostedStrategy.evaluate_metadata
    s doc
  = dict_comprehension
      (ConceptFilteredByFractionAverageMentionsBoostedStrategy.concept_value
         s doc)
      counts.
Proof.
  intros H.
  unfold ConceptFilteredByFractionAverageMentionsBoostedStrategy.evaluate_metadata.
  now rewrite (getitem_Some _ _ _ H).
Qed.

Lemma average_filter_In d thr item :
  In item
    (ConceptFractionFilteredByFractionAverageStrategy._filter_concepts d thr)
  <-> In item d /\ thr <= snd item.
Proof.
  unfold ConceptFractionFilteredByFractionAverageStrategy._filter_concepts.
  now rewrite filter_In, Qle_bool_iff.
Qed.

(** The average-based [parse] raises [TypeError] whenever the "count"
    mapping is empty: the average is [0.0] and [_create_result] is called
    without its argument. *)
Lemma average_parse_no_concepts doc :
  statistics doc !! CountStatisticsStrategy.evaluated_statistics_name
  = Some [] ->
  parse FilteredByFractionAverage doc = Err TypeError.
Proof.
  intros H. cbn.
  unfold ConceptFractionFilteredByFractionAverageStrategy.parse.
  now rewrite (average_parse_with _ doc [] [] H)
    by now apply average_evaluate_metadata.
Qed.

(** C1.  On the document of the test scenario "No concepts are present"
    ([statistics={'count': {}}]), for which the test expects the empty
    result, [ConceptFractionFilteredByFractionAverageStrategy.parse] raises
    [TypeError]. *)
Theorem average_parse_no_concepts_raises :
  parse FilteredByFractionAverage no_concepts = Err TypeError
  /\ parse FilteredByFractionAverage no_concepts <> Ok {| concepts := [] |}.
Proof.
  assert (parse FilteredByFractionAverage no_concepts = Err TypeError) as H.
  { apply average_parse_no_concepts. vm_compute. reflexivity. }
  split; [exact H|]. rewrite H. discriminate.
Qed.

Lemma fold_left_Qplus_uniform c (l : list Q) (a : Q) :
  Forall (fun q => q == c) l ->
  fold_left Qplus l a == a + inject_Z (Z.of_nat (length l)) * c.
Proof.
  intros H. revert a. induction H as [|q l Hq _ IH]; intros a.
  - cbn. ring.
  - cbn [fold_left length]. rewrite IH, Hq, Nat2Z.inj_succ.
    unfold Z.succ. rewrite inject_Z_plus. ring.
Qed.

Lemma raw_average_uniform c (counts : dict) :
  counts <> [] ->
  Forall (fun item => snd item == c) counts ->
  raw_average counts == c.
Proof.
  intros Hne H. unfold raw_average, py_sum.
  rewrite fold_left_Qplus_uniform with (c := c), length_map.
  - field. intros E. apply Qeq_bool_iff, Qeq_bool_of_nat_zero in E.
    destruct counts; [contradiction|discriminate].
  - apply Forall_map. exact H.
Qed.

Lemma average_threshold doc counts :
  statistics doc !! CountStatisticsStrategy.evaluated_statistics_name
  = Some counts ->
  counts <> [] ->
  ConceptFractionFilteredByFractionAverageStrategy._calculate_concept_fraction_average
    doc
  = Ok (raw_average counts).
Proof.
  intros H Hne.
  unfold ConceptFractionFilteredByFractionAverageStrategy._calculate_concept_fraction_average.
  rewrite (getitem_Some _ _ _ H). unfold mbind, result_bind.
  destruct counts as [|item counts]; [contradiction|].
  change (Nat.eqb (length (item :: counts)) 0) with false.
  cbv iota. unfold py_div.
  destruct (Qeq_bool (inject_Z (Z.of_nat (length (item :: counts)))) 0)
    eqn:E; [|reflexivity].
  apply Qeq_bool_of_nat_zero in E. discriminate.
Qed.




Lemma average_parse_with_Err evaluate_metadata doc e :
  evaluate_metadata doc = Err e ->
  ConceptFractionFilteredByFractionAverageStrategy.parse_with
    evaluate_metadata doc = Err e.
Proof.
  intros H.
  unfold ConceptFractionFilteredByFractionAverageStrategy.parse_with.
  now rewrite H.
Qed.

Lemma average_parse_with_In evaluate_metadata doc counts evaluated res u :
  statistics doc !! CountStatisticsStrategy.evaluated_statistics_name
  = Some counts ->
  evaluate_metadata doc = Ok evaluated ->
  ConceptFractionFilteredByFractionAverageStrategy.parse_with
    evaluate_metadata doc = Ok res ->
  In u (concepts res) ->
  exists score, In (u, score) evaluated /\ raw_average counts <= score.
Proof.
  intros Hcounts Heval.
  rewrite (average_parse_with _ doc counts evaluated Hcounts Heval).
  destruct counts as [|item counts]; [discriminate|].
  destruct (Qeq_bool (raw_average (item :: counts)) 0); [discriminate|].
  intros [= <-]. cbn. intros H.
  apply in_map_iff in H as ([u' score] & <- & H).
  apply sorted_desc_In, average_filter_In in H.
  now exists score.
Qed.

Lemma In_keys (d : dict) u score : In (u, score) d -> In u (List.map fst d).
Proof. intros H. apply in_map_iff. now exists (u, score). Qed.

(** C7.  Whatever the strategy and the document, every concept of the
    result is a key of the "count" mapping of the document. *)
Theorem parse_concepts_are_input_concepts
    (strategy : Strategy) (doc : DocumentMetadata) (counts : dict)
    (res : Result) (u : str) :
  statistics doc !! CountStatisticsStrategy.evaluated_statistics_name
  = Some counts ->
  parse strategy doc = Ok res ->
  In u (concepts res) ->
  In u (List.map fst counts).
Proof.
  intros Hcounts Hparse Hu.
  destruct strategy as [s|s| |s]; cbn in Hparse.
  - unfold ConceptFractionInAllWordsStrategy.parse,
      FractionEvaluationStrategy.parse in Hparse.
    rewrite (in_all_words_evaluate_metadata _ _ Hcounts) in Hparse.
    destruct (dict_comprehension _ counts) as [d|] eqn:Ed; [|discriminate].
    injection Hparse as <-.
    apply fraction_create_result_In in Hu as [score Hu].
    apply fraction_filter_In in Hu as [Hu _].
    rewrite <- (dict_comprehension_keys _ _ _ Ed). eapply In_keys, Hu.
  - unfold ConceptFractionInAllConceptsStrategy.parse,
      FractionEvaluationStrategy.parse in Hparse.
    rewrite (in_all_concepts_evaluate_metadata _ _ Hcounts) in Hparse.
    destruct (dict_comprehension _ counts) as [d|] eqn:Ed; [|discriminate].
    injection Hparse as <-.
    apply fraction_create_result_In in Hu as [score Hu].
    apply fraction_filter_In in Hu as [Hu _].
    rewrite <- (dict_comprehension_keys _ _ _ Ed). eapply In_keys, Hu.
  - unfold ConceptFractionFilteredByFractionAverageStrategy.parse in Hparse.
    destruct (average_parse_with_In _ doc counts counts res u Hcounts
                (average_evaluate_metadata doc counts Hcounts) Hparse Hu)
      as (score & H & _).
    eapply In_keys, H.
  - unfold ConceptFilteredByFractionAverageMentionsBoostedStrategy.parse
      in Hparse.
    destruct (ConceptFilteredByFractionAverageMentionsBoostedStrategy.evaluate_metadata
                s doc) as [d|e] eqn:Ed.
    + destruct (average_parse_with_In _ doc counts d res u Hcounts Ed
                  Hparse Hu) as (score & H & _).
      rewrite (boosted_evaluate_metadata _ _ _ Hcounts) in Ed.
      rewrite <- (dict_comprehension_keys _ _ _ Ed). eapply In_keys, H.
    + rewrite (average_parse_with_Err _ _ _ Ed) in Hparse. discriminate.
Qed.

Lemma parse_concepts_are_input_concepts_witness :
  In (uri "2") (List.map fst counts_2_1_3_4_5).
Proof.
  apply (parse_concepts_are_input_concepts
           (MentionsBoosted default_boost) five_concepts_mentioned
           counts_2_1_3_4_5
           {| concepts := [uri "5"; uri "2"; uri "4"; uri "3"] |}
           (uri "2")).
  - vm_compute. reflexivity.
  - vm_compute. reflexivity.
  - cbn. auto.
Defined.

Lemma str_contains_empty_text name :
  name <> [] -> str_contains [] name = false.
Proof. now destruct name. Qed.

(** C10.  On a document whose text is empty and whose concept URIs are all
    non-empty, the boosted strategy and the plain average strategy have
    the same outcome: the same result, or the same exception. *)
Theorem boosted_parse_without_text
    (s : ConceptFilteredByFractionAverageMentionsBoostedStrategy.self)
    (doc : DocumentMetadata) :
  text doc = [] ->
  (forall counts,
      statistics doc !! CountStatisticsStrategy.evaluated_statistics_name
      = Some counts ->
      Forall (fun item => fst item <> []) counts) ->
  parse (MentionsBoosted s) doc = parse FilteredByFractionAverage doc.
Proof.
  intros Htext Huris. cbn.
  unfold ConceptFilteredByFractionAverageMentionsBoostedStrategy.parse,
    ConceptFractionFilteredByFractionAverageStrategy.parse,
    ConceptFractionFilteredByFractionAverageStrategy.parse_with.
  assert (ConceptFilteredByFractionAverageMentionsBoostedStrategy.evaluate_metadata
            s doc
          = ConceptFractionFilteredByFractionAverageStrategy.evaluate_metadata
              doc) as ->; [|reflexivity].
  unfold ConceptFilteredByFractionAverageMentionsBoostedStrategy.evaluate_metadata,
    ConceptFractionFilteredByFractionAverageStrategy.evaluate_metadata,
    getitem.
  destruct (statistics doc !! _) as [counts|] eqn:E; [|reflexivity].
  cbn. rewrite dict_comprehension_id.
  rewrite (dict_comprehension_total (fun _ count => count)).
  - f_equal. clear. induction counts as [|[] counts IH]; [reflexivity|].
    cbn in *. now rewrite IH.
  - intros item Hitem.
    unfold ConceptFilteredByFractionAverageMentionsBoostedStrategy.concept_value.
    rewrite Htext, str_contains_empty_text; [reflexivity|].
    specialize (Huris counts eq_refl). rewrite List.Forall_forall in Huris.
    now apply Huris.
Qed.

Lemma boosted_parse_without_text_witness :
  parse (MentionsBoosted default_boost) five_concepts
  = parse FilteredByFractionAverage five_concepts.
Proof.
  apply (boosted_parse_without_text default_boost five_concepts).
  - reflexivity.
  - intros counts H. vm_compute in H. injection H as <-.
    repeat constructor; discriminate.
Defined.

(** Without the condition on the URIs the two differ: the empty string
    occurs in every text. *)
Example boosted_parse_empty_uri :
  let doc :=
    {| statistics := count_stats [([], 2); (uri "1", 3)]; text := [] |} in
  parse (MentionsBoosted default_boost) doc
  = Ok {| concepts := [[]; uri "1"] |}
  /\ parse FilteredByFractionAverage doc = Ok {| concepts := [uri "1"] |}.
Proof. split; vm_compute; reflexivity. Qed.

Lemma boosted_evaluate_metadata_scores s doc counts :
  statistics doc !! CountStatisticsStrategy.evaluated_statistics_name
  = Some counts ->
  (0 <= ConceptFilteredByFractionAverageMentionsBoostedStrategy.MENTIONED_CONCEPT_BOOST s)%Z ->
  ConceptFilteredByFractionAverageMentionsBoostedStrategy.evaluate_metadata
    s doc
  = Ok (List.map
          (fun item =>
             (fst item, boosted_score s (text doc) (fst item) (snd item)))
          counts).
Proof.
  intros Hcounts Hboost.
  rewrite (boosted_evaluate_metadata _ _ _ Hcounts).
  apply (dict_comprehension_total (boosted_score s (text doc))).
  intros item _.
  unfold ConceptFilteredByFractionAverageMentionsBoostedStrategy.concept_value,
    boosted_score, py_pow.
  destruct (str_contains (text doc) (fst item)); [|reflexivity].
  destruct (Z.ltb_spec
              (ConceptFilteredByFractionAverageMentionsBoostedStrategy.MENTIONED_CONCEPT_BOOST s)
              0); [lia|reflexivity].
Qed.

Lemma raw_average_nil : raw_average [] == 0.
Proof. reflexivity. Qed.




(** ** No call writes the store *)


(** ** Matching an annotated span *)

Section Matching.

Implicit Types (k : cont) (s t a : str) (c : char).

Lemma startswith_app s p : startswith (p ++ s) p = true.
Proof.
  induction p as [|c p IH]; [reflexivity|].
  cbn. now rewrite N.eqb_refl.
Qed.

Lemma str_contains_suffix s needle t :
  str_contains s needle = false ->
  t `suffix_of` s ->
  startswith t needle = false.
Proof.
  induction s as [|c s IH]; cbn; intros H Ht.
  - apply suffix_nil_inv in Ht as ->.
    now apply orb_false_iff in H as [H _].
  - apply orb_false_iff in H as [H1 H2].
    destruct t as [|c' t].
    + destruct needle; [discriminate H1|reflexivity].
    + apply suffix_cons_inv in Ht as [[= -> ->]|Ht]; auto.
Qed.

Lemma lit_app p k s : lit p k (p ++ s) = k s.
Proof. unfold lit. now rewrite startswith_app, drop_app_length. Qed.

Lemma lit_None p k s : startswith s p = false -> lit p k s = None.
Proof. unfold lit. now intros ->. Qed.

Lemma lit_char_None c c' k s :
  c <> c' -> lit [c'] k (c :: s) = None.
Proof.
  intros H. apply lit_None. cbn [startswith].
  destruct (N.eqb_spec c' c); [congruence|reflexivity].
Qed.

Lemma fails_nil k : k [] = None -> fails k [].
Proof. intros H t Ht. now apply suffix_nil_inv in Ht as ->. Qed.

Lemma fails_cons k c s : k (c :: s) = None -> fails k s -> fails k (c :: s).
Proof.
  intros H Hs t Ht. destruct t as [|c' t].
  - apply Hs, suffix_nil.
  - apply suffix_cons_inv in Ht as [->|Ht]; auto.
Qed.

Lemma fails_suffix k s t : fails k s -> t `suffix_of` s -> fails k t.
Proof. intros H Ht u Hu. apply H. now transitivity t. Qed.

Lemma fails_here k s : fails k s -> k s = None.
Proof. intros H. now apply H. Qed.

Lemma fails_tail k c s : fails k (c :: s) -> fails k s.
Proof. intros H. apply (fails_suffix _ _ _ H), suffix_cons_r. reflexivity. Qed.

Lemma dot_star_greedy_None k s : fails k s -> dot_star_greedy k s = None.
Proof.
  induction s as [|c s IH]; intros H; cbn.
  - now apply fails_here.
  - rewrite IH by now apply fails_tail in H.
    rewrite (fails_here _ _ H). now destruct (is_dot c).
Qed.

Lemma dot_star_greedy_skip k a s r :
  forallb is_dot a = true ->
  dot_star_greedy k s = Some r ->
  dot_star_greedy k (a ++ s) = Some r.
Proof.
  intros Ha Hs. induction a as [|c a IH]; [exact Hs|].
  cbn in Ha. apply andb_true_iff in Ha as [Hc Ha].
  cbn. now rewrite Hc, IH.
Qed.

Lemma dot_star_lazy_None k s : fails k s -> dot_star_lazy k s = None.
Proof.
  induction s as [|c s IH]; intros H; cbn.
  - now rewrite (fails_here _ _ H).
  - rewrite (fails_here _ _ H), IH by now apply fails_tail in H.
    now destruct (is_dot c).
Qed.

Lemma dot_star_lazy_here k s r : k s = Some r -> dot_star_lazy k s = Some r.
Proof. intros H. destruct s; cbn; now rewrite H. Qed.

Lemma dot_star_lazy_skip k (P : char -> bool) a s :
  forallb (fun c => is_dot c && P c) a = true ->
  (forall c t, P c = true -> k (c :: t) = None) ->
  dot_star_lazy k (a ++ s) = dot_star_lazy k s.
Proof.
  intros Ha Hk. induction a as [|c a IH]; [reflexivity|].
  cbn in Ha. apply andb_true_iff in Ha as [Hc Ha].
  apply andb_true_iff in Hc as [Hdot HP].
  cbn [app dot_star_lazy]. rewrite (Hk _ _ HP), Hdot. now apply IH.
Qed.

Lemma tag_end_None_other c k s :
  negb (c =? 62)%N = true -> lit (of_string ">") k (c :: s) = None.
Proof.
  intros H. literals. apply lit_char_None. intros ->. discriminate H.
Qed.

Lemma close_None_other c k s :
  negb (c =? 60)%N = true -> lit (of_string "</em>") k (c :: s) = None.
Proof.
  intros H. apply lit_None. literals. cbn [startswith].
  destruct (N.eqb_spec 60 c) as [<-|]; [discriminate H|reflexivity].
Qed.

Lemma surface_text_None s :
  str_contains s (of_string "</em>") = false ->
  fails (dot_plus_lazy (lit (of_string "</em>") Some)) s.
Proof.
  intros H t Ht. unfold dot_plus_lazy.
  destruct t as [|c t]; [reflexivity|].
  destruct (is_dot c); [|reflexivity].
  apply dot_star_lazy_None. intros u Hu. apply lit_None.
  apply (str_contains_suffix s); [exact H|].
  transitivity (c :: t); [|exact Ht].
  now apply suffix_cons_r.
Qed.

Lemma tag_end_None s :
  str_contains s (of_string "</em>") = false ->
  fails (lit (of_string ">")
           (dot_plus_lazy (lit (of_string "</em>") Some))) s.
Proof.
  intros H t Ht. unfold lit at 1.
  destruct (startswith t (of_string ">")); [|reflexivity].
  apply (surface_text_None s H).
  transitivity t; [apply suffix_drop|exact Ht].
Qed.

Lemma tag_end_None_app a s :
  forallb (fun c => negb (c =? 62)%N) a = true ->
  fails (lit (of_string ">")
           (dot_plus_lazy (lit (of_string "</em>") Some))) s ->
  fails (lit (of_string ">")
           (dot_plus_lazy (lit (of_string "</em>") Some))) (a ++ s).
Proof.
  intros Ha Hs. induction a as [|c a IH]; [exact Hs|].
  cbn in Ha. apply andb_true_iff in Ha as [Hc Ha].
  apply fails_cons; [now apply tag_end_None_other|now apply IH].
Qed.

Lemma forallb_impl {A} (P Q : A -> bool) (l : list A) :
  (forall x, P x = true -> Q x = true) ->
  forallb P l = true -> forallb Q l = true.
Proof.
  intros H. rewrite !forallb_forall. auto.
Qed.

Lemma surface_text_match surface post :
  surface <> [] ->
  forallb (fun c => is_dot c && (negb (c =? 60)%N && negb (c =? 62)%N))
    surface = true ->
  dot_plus_lazy (lit (of_string "</em>") Some)
    (surface ++ of_string "</em>" ++ post)
  = Some post.
Proof.
  intros Hne H. destruct surface as [|c surface]; [contradiction|].
  cbn in H. apply andb_true_iff in H as [Hc H].
  apply andb_true_iff in Hc as [Hdot _].
  cbn [app dot_plus_lazy]. rewrite Hdot.
  rewrite (dot_star_lazy_skip _ _ _ _ H).
  - apply dot_star_lazy_here, lit_app.
  - intros c' t Hc'. apply andb_true_iff in Hc' as [Hc' _].
    now apply close_None_other.
Qed.

Lemma tag_end_None_behind surface post :
  forallb (fun c => is_dot c && (negb (c =? 60)%N && negb (c =? 62)%N))
    surface = true ->
  str_contains post (of_string "</em>") = false ->
  fails (lit (of_string ">")
           (dot_plus_lazy (lit (of_string "</em>") Some)))
    (surface ++ of_string "</em>" ++ post).
Proof.
  intros Hs Hpost. apply tag_end_None_app.
  - revert Hs. apply forallb_impl. intros c H.
    apply andb_true_iff in H as [_ H].
    now apply andb_true_iff in H as [_ H].
  - change (of_string "</em>" ++ post)
      with ([60; 47; 101; 109]%N ++ 62%N :: post).
    apply tag_end_None_app; [reflexivity|].
    apply fails_cons; [|now apply tag_end_None].
    change (62%N :: post) with (of_string ">" ++ post).
    rewrite lit_app. now apply (surface_text_None post).
Qed.

Lemma re_extract_annotated_words_match attrs surface post :
  attrs <> [] ->
  forallb (fun c => is_dot c && negb (c =? 62)%N) attrs = true ->
  surface <> [] ->
  forallb (fun c => is_dot c && (negb (c =? 60)%N && negb (c =? 62)%N))
    surface = true ->
  str_contains post (of_string "</em>") = false ->
  ConceptFractionInAllWordsStrategy.re_extract_annotated_words
    (of_string "<em" ++ attrs ++ of_string ">" ++ surface
     ++ of_string "</em>" ++ post)
  = Some post.
Proof.
  intros Hattrs Hachars Hsurface Hschars Hpost.
  unfold ConceptFractionInAllWordsStrategy.re_extract_annotated_words.
  rewrite lit_app.
  destruct attrs as [|c attrs]; [contradiction|].
  cbn in Hachars. apply andb_true_iff in Hachars as [Hc Hachars].
  apply andb_true_iff in Hc as [Hdot _].
  cbn [app dot_plus_greedy]. rewrite Hdot.
  apply dot_star_greedy_skip.
  { revert Hachars. apply forallb_impl. intros c' H.
    now apply andb_true_iff in H as [H _]. }
  change (of_string ">" ++ surface ++ of_string "</em>" ++ post)
    with (62%N :: surface ++ of_string "</em>" ++ post).
  cbn [dot_star_greedy is_dot N.eqb negb Pos.eqb].
  rewrite dot_star_greedy_None by now apply tag_end_None_behind.
  change (62%N :: surface ++ of_string "</em>" ++ post)
    with (of_string ">" ++ surface ++ of_string "</em>" ++ post).
  rewrite lit_app. now apply surface_text_match.
Qed.

Lemma annotated_span_match attrs surface post :
  forallb (fun c => is_dot c && negb (c =? 62)%N) attrs = true ->
  surface <> [] ->
  forallb (fun c => is_dot c && (negb (c =? 60)%N && negb (c =? 62)%N))
    surface = true ->
  annotated_span
    (of_string "<em" ++ attrs ++ of_string ">" ++ surface
     ++ of_string "</em>" ++ post)
  = Some post.
Proof.
  intros Hachars Hsurface Hschars.
  unfold annotated_span. rewrite lit_app.
  rewrite (dot_star_lazy_skip _ _ _ _ Hachars)
    by (intros; now apply tag_end_None_other).
  apply dot_star_lazy_here. rewrite lit_app.
  now apply surface_text_match.
Qed.

Lemma re_extract_annotated_words_None s :
  str_contains s (of_string "</em>") = false ->
  fails ConceptFractionInAllWordsStrategy.re_extract_annotated_words s.
Proof.
  intros H t Ht.
  unfold ConceptFractionInAllWordsStrategy.re_extract_annotated_words.
  unfold lit at 1. destruct (startswith t (of_string "<em")); [|reflexivity].
  assert (drop (length (of_string "<em")) t `suffix_of` s) as Hd.
  { transitivity t; [apply suffix_drop|exact Ht]. }
  destruct (drop _ t) as [|c u]; [reflexivity|].
  cbn [dot_plus_greedy]. destruct (is_dot c); [|reflexivity].
  apply dot_star_greedy_None.
  apply (fails_suffix _ s); [now apply tag_end_None|].
  transitivity (c :: u); [now apply suffix_cons_r|exact Hd].
Qed.

Lemma annotated_span_None s :
  str_contains s (of_string "</em>") = false ->
  fails annotated_span s.
Proof.
  intros H t Ht. unfold annotated_span.
  unfold lit at 1. destruct (startswith t (of_string "<em")); [|reflexivity].
  apply dot_star_lazy_None.
  apply (fails_suffix _ s); [now apply tag_end_None|].
  transitivity t; [apply suffix_drop|exact Ht].
Qed.

Lemma startswith_em_before pre t rest :
  str_contains pre (of_string "<em") = false ->
  t <> [] ->
  t `suffix_of` pre ->
  startswith (t ++ of_string "<em" ++ rest) (of_string "<em") = false.
Proof.
  intros Hpre Hne Ht.
  pose proof (str_contains_suffix _ _ _ Hpre Ht) as H.
  literals.
  destruct t as [|a [|b [|c t]]]; [contradiction|..];
    cbn [startswith app] in *.
  - now destruct (60 =? a)%N.
  - now destruct (60 =? a)%N, (101 =? b)%N.
  - exact H.
Qed.

End Matching.

(** ** The substitution on a text with one annotated span *)

Lemma sub_from_skip re repl limit (a s : str) :
  sub_from re repl limit (length a) (a ++ s) = sub_from re repl limit 0 s.
Proof. induction a as [|c a IH]; [reflexivity|exact IH]. Qed.

Lemma sub_from_no_match re repl limit (s : str) :
  fails re s -> sub_from re repl limit 0 s = s.
Proof.
  induction s as [|c s IH]; intros H; [reflexivity|].
  cbn [sub_from]. rewrite (fails_here _ _ H), IH by now apply fails_tail in H.
  now destruct limit as [[|n]|].
Qed.

Lemma sub_from_copy re repl limit (pre s : str) :
  (forall t, t <> [] -> t `suffix_of` pre -> re (t ++ s) = None) ->
  sub_from re repl limit 0 (pre ++ s) = pre ++ sub_from re repl limit 0 s.
Proof.
  induction pre as [|c pre IH]; intros H; [reflexivity|].
  assert (re (c :: pre ++ s) = None) as Hc
    by (apply (H (c :: pre)); [discriminate|reflexivity]).
  cbn [app sub_from]. rewrite Hc.
  rewrite IH by (intros t Hne Ht; apply H; [exact Hne|now apply suffix_cons_r]).
  now destruct limit as [[|n]|].
Qed.

Lemma sub_from_match re repl limit (m rest : str) :
  limit <> Some 0%nat ->
  m <> [] ->
  re (m ++ rest) = Some rest ->
  sub_from re repl limit 0 (m ++ rest)
  = repl ++ sub_from re repl (pred <$> limit) 0 rest.
Proof.
  intros Hlimit Hm Hre. destruct m as [|c m]; [contradiction|].
  cbn [app sub_from]. cbn [app] in Hre. rewrite Hre.
  replace (length (m ++ rest) - length rest)%nat with (length m)
    by (rewrite length_app; lia).
  rewrite sub_from_skip.
  destruct limit as [[|n]|]; [contradiction|reflexivity..].
Qed.

Lemma sub_from_single re repl limit (pre m rest : str) :
  limit <> Some 0%nat ->
  m <> [] ->
  (forall t, t <> [] -> t `suffix_of` pre -> re (t ++ m ++ rest) = None) ->
  re (m ++ rest) = Some rest ->
  fails re rest ->
  sub_from re repl limit 0 (pre ++ m ++ rest) = pre ++ repl ++ rest.
Proof.
  intros Hlimit Hm Hpre Hre Hrest.
  rewrite sub_from_copy by exact Hpre.
  rewrite sub_from_match by assumption.
  now rewrite sub_from_no_match.
Qed.

Lemma single_annotated_span_replaced_text text pre attrs surface post :
  single_annotated_span text pre attrs surface post ->
  ConceptFractionInAllWordsStrategy.replaced_text text
  = pre ++ of_string "foo" ++ post
  /\ spec_collapse text = pre ++ of_string "foo" ++ post.
Proof.
  intros [-> Hpre Hattrs Hachars Hsurface Hschars Hpost].
  unfold ConceptFractionInAllWordsStrategy.replaced_text, spec_collapse,
    re_sub.
  cbn [re_DOTALL].
  set (m := of_string "<em" ++ attrs ++ of_string ">" ++ surface
            ++ of_string "</em>").
  replace (of_string "<em" ++ attrs ++ of_string ">" ++ surface
           ++ of_string "</em>" ++ post) with (m ++ post)
    by (unfold m; now rewrite <- !app_assoc).
  assert (m <> []) as Hm by discriminate.
  assert (forall rest, m ++ rest
          = of_string "<em" ++ attrs ++ of_string ">" ++ surface
            ++ of_string "</em>" ++ rest) as Em
    by (intros; unfold m; now rewrite <- !app_assoc).
  split; apply sub_from_single; try assumption; try discriminate.
  - intros t Hne Ht. apply lit_None. rewrite Em.
    now apply (startswith_em_before pre).
  - rewrite Em. now apply re_extract_annotated_words_match.
  - now apply re_extract_annotated_words_None.
  - intros t Hne Ht. apply lit_None. rewrite Em.
    now apply (startswith_em_before pre).
  - rewrite Em. now apply annotated_span_match.
  - now apply annotated_span_None.
Qed.

(** A text in which no [</em>] occurs is left as it is. *)
Lemma no_span_replaced_text text :
  str_contains text (of_string "</em>") = false ->
  ConceptFractionInAllWordsStrategy.replaced_text text = text
  /\ spec_collapse text = text.
Proof.
  intros H. split; apply sub_from_no_match.
  - now apply re_extract_annotated_words_None.
  - now apply annotated_span_None.
Qed.

(** With at most one span, the substitution of the code and the collapse of
    every span agree. *)
Lemma at_most_one_span_replaced_text text :
  at_most_one_span text ->
  ConceptFractionInAllWordsStrategy.replaced_text text = spec_collapse text.
Proof.
  intros [H|pre attrs surface post H].
  - destruct (no_span_replaced_text text H) as [-> ->]. reflexivity.
  - destruct (single_annotated_span_replaced_text _ _ _ _ _ H) as [-> ->].
    reflexivity.
Qed.

Lemma size_list_to_set_remove_dups (l : list str) :
  size (list_to_set l : gset str) = length (remove_dups l).
Proof.
  rewrite <- (size_list_to_set (C := gset str) (remove_dups l))
    by apply NoDup_remove_dups.
  f_equal. apply set_eq. intros w.
  now rewrite !elem_of_list_to_set, elem_of_remove_dups.
Qed.

(** On every text, the denominator is the number of distinct words left by
    the substitution and the split. *)
Lemma word_count_distinct text :
  ConceptFractionInAllWordsStrategy.word_count text
  = length (remove_dups (ConceptFractionInAllWordsStrategy.tokens text)).
Proof. apply size_list_to_set_remove_dups. Qed.




(** ** The patterns match no empty string

    [sub_from] and [split_from] step over a match of at least one
    character; every match of the patterns they are used with is one. *)

Section Shrinks.

Implicit Types (k : cont) (n : nat).

Lemma shrinks_Some : shrinks 0 Some.
Proof. intros s rest [= ->]. lia. Qed.

Lemma shrinks_le n m k : (m <= n)%nat -> shrinks n k -> shrinks m k.
Proof. intros Hle H s rest Hk. specialize (H s rest Hk). lia. Qed.

Lemma startswith_length (s p : str) :
  startswith s p = true -> (length p <= length s)%nat.
Proof.
  revert s. induction p as [|c p IH]; intros s; cbn; [lia|].
  destruct s as [|c' s]; [discriminate|].
  intros H. apply andb_true_iff in H as [_ H]. apply IH in H. cbn. lia.
Qed.

Lemma shrinks_lit p n k : shrinks n k -> shrinks (n + length p) (lit p k).
Proof.
  intros H s rest. unfold lit.
  destruct (startswith s p) eqn:E; [|discriminate].
  intros Hk. apply H in Hk. apply startswith_length in E.
  rewrite length_drop in Hk. lia.
Qed.

Lemma shrinks_dot_star_greedy n k : shrinks n k -> shrinks n (dot_star_greedy k).
Proof.
  intros H s. induction s as [|c s IH]; intros rest; cbn [dot_star_greedy].
  - apply H.
  - destruct (is_dot c); [|apply H].
    destruct (dot_star_greedy k s) as [r|] eqn:E.
    + intros [= <-]. specialize (IH r eq_refl). cbn. lia.
    + apply H.
Qed.

Lemma shrinks_dot_star_lazy n k : shrinks n k -> shrinks n (dot_star_lazy k).
Proof.
  intros H s. induction s as [|c s IH]; intros rest; cbn.
  - destruct (k []) eqn:E; [|discriminate].
    intros [= <-]. exact (H [] _ E).
  - destruct (k (c :: s)) eqn:E.
    + intros [= <-]. exact (H (c :: s) _ E).
    + destruct (is_dot c); [|discriminate].
      intros Hk. specialize (IH rest Hk). lia.
Qed.

Lemma shrinks_dot_plus_greedy n k :
  shrinks n k -> shrinks (S n) (dot_plus_greedy k).
Proof.
  intros H [|c s] rest; cbn; [discriminate|].
  destruct (is_dot c); [|discriminate].
  intros Hk. apply (shrinks_dot_star_greedy n k H) in Hk. lia.
Qed.

Lemma shrinks_dot_plus_lazy n k :
  shrinks n k -> shrinks (S n) (dot_plus_lazy k).
Proof.
  intros H [|c s] rest; cbn; [discriminate|].
  destruct (is_dot c); [|discriminate].
  intros Hk. apply (shrinks_dot_star_lazy n k H) in Hk. lia.
Qed.

Lemma shrinks_space n k : shrinks n k -> shrinks (S n) (space k).
Proof.
  intros H [|c s] rest; cbn; [discriminate|].
  destruct (is_space c); [|discriminate].
  intros Hk. apply H in Hk. lia.
Qed.

Lemma shrinks_alt n a b : shrinks n a -> shrinks n b -> shrinks n (alt a b).
Proof.
  intros Ha Hb s rest. unfold alt.
  destruct (a s) eqn:E; [intros [= <-]; now apply Ha|apply Hb].
Qed.

Lemma re_extract_annotated_words_shrinks :
  shrinks 1 ConceptFractionInAllWordsStrategy.re_extract_annotated_words.
Proof.
  apply (shrinks_le (2 + 1 + 3)); [lia|].
  apply (shrinks_lit (of_string "<em")), shrinks_dot_plus_greedy,
    (shrinks_lit (of_string ">") 1), shrinks_dot_plus_lazy,
    (shrinks_le 5 0); [lia|].
  apply (shrinks_lit (of_string "</em>") 0), shrinks_Some.
Qed.

Lemma re_word_split_shrinks :
  shrinks 1 ConceptFractionInAllWordsStrategy.re_word_split.
Proof.
  apply shrinks_alt.
  - apply (shrinks_lit (of_string "<") 0), shrinks_dot_star_lazy,
      (shrinks_le 1 0); [lia|].
    apply (shrinks_lit (of_string ">") 0), shrinks_Some.
  - apply shrinks_space, shrinks_Some.
Qed.

Lemma annotated_span_shrinks : shrinks 1 annotated_span.
Proof.
  apply (shrinks_le (1 + 1 + 3)); [lia|].
  apply (shrinks_lit (of_string "<em")), shrinks_dot_star_lazy,
    (shrinks_lit (of_string ">") 1), shrinks_dot_plus_lazy,
    (shrinks_le 5 0); [lia|].
  apply (shrinks_lit (of_string "</em>") 0), shrinks_Some.
Qed.

End Shrinks.

(** * Further properties of the strategies and of the evaluator *)

(** ** Which exception, and when *)

Lemma dict_comprehension_Err f (d : dict) e :
  dict_comprehension f d = Err e ->
  exists item, In item d /\ f (fst item) (snd item) = Err e.
Proof.
  induction d as [|item d IH]; [discriminate|].
  rewrite dict_comprehension_cons.
  destruct (f (fst item) (snd item)) as [value|e'] eqn:Ef.
  - cbn. destruct (dict_comprehension f d) as [rest|e'']; [discriminate|].
    cbn. intros [= <-]. destruct (IH eq_refl) as (item' & Hin & H).
    exists item'. split; [now right|exact H].
  - cbn. intros [= <-]. exists item. split; [now left|exact Ef].
Qed.

Lemma py_div_Err a b e : py_div a b = Err e -> e = ZeroDivisionError.
Proof. unfold py_div. destruct (Qeq_bool b 0); congruence. Qed.

Lemma py_pow_Err a n e : py_pow a n = Err e -> e = ZeroDivisionError.
Proof. unfold py_pow. destruct (_ && _); congruence. Qed.

Lemma parse_missing_count strategy doc :
  statistics doc !! CountStatisticsStrategy.evaluated_statistics_name = None ->
  parse strategy doc = Err KeyError.
Proof.
  intros H. destruct strategy as [s|s| |s]; cbn [parse].
  - unfold ConceptFractionInAllWordsStrategy.parse,
      FractionEvaluationStrategy.parse,
      ConceptFractionInAllWordsStrategy.evaluate_metadata, getitem.
    now rewrite H.
  - unfold ConceptFractionInAllConceptsStrategy.parse,
      FractionEvaluationStrategy.parse,
      ConceptFractionInAllConceptsStrategy.evaluate_metadata, getitem.
    now rewrite H.
  - apply average_parse_with_Err.
    unfold ConceptFractionFilteredByFractionAverageStrategy.evaluate_metadata,
      getitem.
    now rewrite H.
  - apply average_parse_with_Err.
    unfold ConceptFilteredByFractionAverageMentionsBoostedStrategy.evaluate_metadata,
      getitem.
    now rewrite H.
Qed.

Lemma parse_present_count_not_KeyError strategy doc counts :
  statistics doc !! CountStatisticsStrategy.evaluated_statistics_name
  = Some counts ->
  parse strategy doc <> Err KeyError.
Proof.
  intros H. destruct strategy as [s|s| |s]; cbn [parse].
  - unfold ConceptFractionInAllWordsStrategy.parse. intros E.
    apply fraction_parse_Err in E.
    rewrite (in_all_words_evaluate_metadata _ _ H) in E.
    apply dict_comprehension_Err in E as (item & _ & E).
    apply py_div_Err in E. discriminate.
  - unfold ConceptFractionInAllConceptsStrategy.parse. intros E.
    apply fraction_parse_Err in E.
    rewrite (in_all_concepts_evaluate_metadata _ _ H) in E.
    apply dict_comprehension_Err in E as (item & _ & E).
    apply py_div_Err in E. discriminate.
  - unfold ConceptFractionFilteredByFractionAverageStrategy.parse.
    rewrite (average_parse_with _ doc counts counts H)
      by now apply average_evaluate_metadata.
    destruct counts; [discriminate|].
    now destruct (Qeq_bool _ 0).
  - unfold ConceptFilteredByFractionAverageMentionsBoostedStrategy.parse.
    destruct (ConceptFilteredByFractionAverageMentionsBoostedStrategy.evaluate_metadata
                s doc) as [d|e] eqn:Ed.
    + rewrite (average_parse_with _ doc counts d H Ed).
      destruct counts; [discriminate|].
      now destruct (Qeq_bool _ 0).
    + rewrite (average_parse_with_Err _ _ _ Ed). intros [= ->].
      rewrite (boosted_evaluate_metadata _ _ _ H) in Ed.
      apply dict_comprehension_Err in Ed as (item & _ & E).
      unfold ConceptFilteredByFractionAverageMentionsBoostedStrategy.concept_value
        in E.
      destruct (str_contains _ _); [|discriminate].
      apply py_pow_Err in E. discriminate.
Qed.

(** X1.  Whatever the strategy, [parse] raises [KeyError] exactly when the
    statistics of the document have no "count" entry. *)
Theorem parse_KeyError_iff_no_count
    (strategy : Strategy) (doc : DocumentMetadata) :
  parse strategy doc = Err KeyError <->
  statistics doc !! CountStatisticsStrategy.evaluated_statistics_name = None.
Proof.
  split.
  - intros E.
    destruct (statistics doc
                !! CountStatisticsStrategy.evaluated_statistics_name)
      as [counts|] eqn:H; [|reflexivity].
    now apply (parse_present_count_not_KeyError strategy) in H.
  - apply parse_missing_count.
Qed.

Lemma slice_to_nil {A} (stop : Z) : slice_to stop (@nil A) = [].
Proof. unfold slice_to. destruct (stop <? 0)%Z; apply take_nil. Qed.

(** X2.  On a document without concepts ([{'count': {}}]) both
    fraction-based strategies return the empty result, whatever the text,
    [number_of_concepts] and [min_fraction]: nothing is divided, also when
    the text has no token. *)
Theorem fraction_parse_no_concepts
    (s : FractionEvaluationStrategy.self) (doc : DocumentMetadata) :
  statistics doc !! CountStatisticsStrategy.evaluated_statistics_name
  = Some [] ->
  parse (InAllWords s) doc = Ok {| concepts := [] |}
  /\ parse (InAllConcepts s) doc = Ok {| concepts := [] |}.
Proof.
  intros H. cbn [parse].
  unfold ConceptFractionInAllWordsStrategy.parse,
    ConceptFractionInAllConceptsStrategy.parse,
    FractionEvaluationStrategy.parse.
  rewrite (in_all_words_evaluate_metadata _ _ H),
    (in_all_concepts_evaluate_metadata _ _ H).
  cbn [dict_comprehension mapM mbind result_bind].
  unfold FractionEvaluationStrategy._create_result,
    FractionEvaluationStrategy._filter_concepts.
  cbn [List.filter sorted_desc List.map]. now rewrite slice_to_nil.
Qed.

Lemma fraction_parse_no_concepts_witness :
  parse (InAllWords (fraction_self (Some 0.5)))
    {| statistics := count_stats []; text := of_string "<p> </p>" |}
  = Ok {| concepts := [] |}
  /\ parse (InAllConcepts (fraction_self (Some 0.5)))
       {| statistics := count_stats []; text := of_string "<p> </p>" |}
     = Ok {| concepts := [] |}.
Proof.
  apply (fraction_parse_no_concepts (fraction_self (Some 0.5))
           {| statistics := count_stats []; text := of_string "<p> </p>" |}).
  vm_compute. reflexivity.
Defined.

Lemma py_sum_acc (l : list Q) (a : Q) :
  fold_left Qplus l a == a + py_sum l.
Proof.
  unfold py_sum. revert a. induction l as [|q l IH]; intros a; cbn.
  - ring.
  - rewrite (IH (a + q)), (IH (0 + q)). ring.
Qed.

Lemma py_sum_cons (q : Q) (l : list Q) : py_sum (q :: l) == q + py_sum l.
Proof. unfold py_sum at 1. cbn. rewrite py_sum_acc. ring. Qed.

Lemma raw_average_zero (counts : dict) :
  counts <> [] ->
  (raw_average counts == 0 <-> py_sum (List.map snd counts) == 0).
Proof.
  intros Hne. unfold raw_average.
  assert (~ inject_Z (Z.of_nat (length counts)) == 0) as Hn.
  { intros E. apply Qeq_bool_iff, Qeq_bool_of_nat_zero in E.
    destruct counts; [contradiction|discriminate]. }
  split; intros H.
  - rewrite <- (Qmult_div_r (py_sum (List.map snd counts)) _ Hn), H. ring.
  - rewrite H. field. exact Hn.
Qed.



(** ** The evaluator *)

(** X4.  With any of the four strategies, the evaluator raises [KeyError]
    when the metadata lack ['statistics'] or ['fulltext'] (the latter also
    for the strategies that never read the text) or the statistics lack
    "count"; otherwise it hands on what [parse] returns or raises on the
    document made of the two values. *)
Theorem evaluator_missing_key
    (strategy : Strategy) (md : TextConceptEvaluator.metadata) :
  (TextConceptEvaluator.statistics_item md = None
   \/ TextConceptEvaluator.fulltext_item md = None
   \/ (exists stats,
          TextConceptEvaluator.statistics_item md = Some stats
          /\ stats !! CountStatisticsStrategy.evaluated_statistics_name
             = None) ->
   TextConceptEvaluator.get_concepts_from_text (parse strategy) md
   = Err KeyError)
  /\ (forall stats fulltext,
        TextConceptEvaluator.statistics_item md = Some stats ->
        TextConceptEvaluator.fulltext_item md = Some fulltext ->
        TextConceptEvaluator.get_concepts_from_text (parse strategy) md
        = match parse strategy {| statistics := stats; text := fulltext |}
          with
          | Ok res => Ok (concepts res)
          | Err e => Err e
          end).
Proof.
  unfold TextConceptEvaluator.get_concepts_from_text,
    TextConceptEvaluator.metadata2object,
    TextConceptEvaluator.metadata_getitem.
  split.
  - intros [H|[H|(stats & H & Hcount)]].
    + now rewrite H.
    + rewrite H. now destruct (TextConceptEvaluator.statistics_item md).
    + rewrite H. destruct (TextConceptEvaluator.fulltext_item md) as [t|];
        [|reflexivity].
      cbn. now rewrite parse_missing_count.
  - intros stats fulltext -> ->. reflexivity.
Qed.

Lemma evaluator_missing_key_witness :
  TextConceptEvaluator.get_concepts_from_text
    (parse FilteredByFractionAverage)
    {| TextConceptEvaluator.statistics_item :=
         Some (count_stats counts_2_1_3_4_5);
       TextConceptEvaluator.fulltext_item := None |}
  = Err KeyError.
Proof.
  apply (evaluator_missing_key FilteredByFractionAverage
           {| TextConceptEvaluator.statistics_item :=
                Some (count_stats counts_2_1_3_4_5);
              TextConceptEvaluator.fulltext_item := None |}).
  right. left. reflexivity.
Defined.

(** ** What the average strategy returns *)

Lemma py_sum_below (c : Q) (l : list Q) :
  l <> [] ->
  Forall (fun q => q < c) l ->
  py_sum l < inject_Z (Z.of_nat (length l)) * c.
Proof.
  intros Hne H. induction H as [|q l Hq Hl IH]; [contradiction|].
  rewrite py_sum_cons. cbn [length]. rewrite Nat2Z.inj_succ.
  unfold Z.succ. rewrite inject_Z_plus.
  assert ((inject_Z (Z.of_nat (length l)) + inject_Z 1) * c
          == c + inject_Z (Z.of_nat (length l)) * c) as -> by ring.
  destruct l as [|q' l].
  - assert (py_sum [] == 0) as -> by reflexivity.
    assert (inject_Z (Z.of_nat (length (@nil Q))) * c == 0) as ->
      by (cbn; ring).
    now rewrite !Qplus_0_r.
  - specialize (IH ltac:(discriminate)).
    apply Qplus_lt_le_compat; [exact Hq|now apply Qlt_le_weak].
Qed.

Lemma some_count_reaches_average (counts : dict) :
  counts <> [] ->
  exists item, In item counts /\ raw_average counts <= snd item.
Proof.
  intros Hne.
  destruct (Forall_Exists_dec
              (fun item : str * Q => snd item < raw_average counts)
              (fun item : str * Q => raw_average counts <= snd item)
              (fun item => Qlt_le_dec (snd item) (raw_average counts))
              counts) as [Hall|Hex].
  - exfalso.
    assert (~ inject_Z (Z.of_nat (length counts)) == 0) as Hn.
    { intros E. apply Qeq_bool_iff, Qeq_bool_of_nat_zero in E.
      destruct counts; [contradiction|discriminate]. }
    pose proof (py_sum_below (raw_average counts) (List.map snd counts)) as H.
    rewrite length_map in H.
    assert (py_sum (List.map snd counts)
            < inject_Z (Z.of_nat (length counts)) * raw_average counts) as Hlt.
    { apply H; [destruct counts; [contradiction|discriminate]|].
      now apply Forall_map. }
    unfold raw_average in Hlt. rewrite Qmult_div_r in Hlt by exact Hn.
    now apply Qlt_irrefl in Hlt.
  - apply List.Exists_exists in Hex as (item & Hin & Hle).
    now exists item.
Qed.





(** ** What the fraction-based strategies return *)

(** X7.  For a [number_of_concepts] of at least [-1], the result of a
    fraction-based strategy has exactly [number_of_concepts + 1] concepts
    when that many pass [min_fraction], and all that pass otherwise. *)
Theorem fraction_create_result_length
    (s : FractionEvaluationStrategy.self) (d : dict) :
  (-1 <= FractionEvaluationStrategy.number_of_concepts s)%Z ->
  Z.of_nat (length (concepts (FractionEvaluationStrategy._create_result s d)))
  = Z.min (FractionEvaluationStrategy.number_of_concepts s + 1)
      (Z.of_nat (length (FractionEvaluationStrategy._filter_concepts s d))).
Proof.
  intros Hn. unfold FractionEvaluationStrategy._create_result.
  cbn [concepts]. unfold slice_to.
  destruct (Z.ltb_spec (FractionEvaluationStrategy.number_of_concepts s + 1) 0);
    [lia|].
  rewrite length_take, length_map, sorted_desc_length. lia.
Qed.

Lemma fraction_create_result_length_witness :
  Z.of_nat
    (length
       (concepts
          (FractionEvaluationStrategy._create_result
             {| FractionEvaluationStrategy.number_of_concepts := 1;
                FractionEvaluationStrategy.min_fraction := Some 2 |}
             counts_2_1_3_4_5)))
  = Z.min (1 + 1)
      (Z.of_nat
         (length
            (FractionEvaluationStrategy._filter_concepts
               {| FractionEvaluationStrategy.number_of_concepts := 1;
                  FractionEvaluationStrategy.min_fraction := Some 2 |}
               counts_2_1_3_4_5))).
Proof.
  apply (fraction_create_result_length
           {| FractionEvaluationStrategy.number_of_concepts := 1;
              FractionEvaluationStrategy.min_fraction := Some 2 |}
           counts_2_1_3_4_5).
  cbn. lia.
Defined.

Lemma py_sum_scaled (k : Q) (l : list Q) :
  py_sum (List.map (fun q => q / k) l) == py_sum l / k.
Proof.
  induction l as [|q l IH].
  - unfold py_sum. cbn. unfold Qdiv. ring.
  - cbn [List.map]. rewrite !py_sum_cons, IH. unfold Qdiv. ring.
Qed.



Lemma Qle_bool_scaled (k a b : Q) :
  0 < k -> Qle_bool (a / k) (b / k) = Qle_bool a b.
Proof.
  intros Hk. apply eq_true_iff_eq. rewrite !Qle_bool_iff. unfold Qdiv.
  apply Qmult_le_r. now apply Qinv_lt_0_compat.
Qed.

Lemma insert_desc_scaled (k : Q) x (l : dict) :
  0 < k ->
  insert_desc (scaled k x) (List.map (scaled k) l)
  = List.map (scaled k) (insert_desc x l).
Proof.
  intros Hk. induction l as [|y l IH]; [reflexivity|].
  cbn [List.map insert_desc]. unfold scaled at 1 2. cbn [snd].
  rewrite Qle_bool_scaled by exact Hk.
  destruct (Qle_bool (snd y) (snd x)); [reflexivity|].
  cbn [List.map]. now rewrite <- IH.
Qed.

Lemma sorted_desc_scaled (k : Q) (d : dict) :
  0 < k ->
  sorted_desc (List.map (scaled k) d) = List.map (scaled k) (sorted_desc d).
Proof.
  intros Hk. induction d as [|x d IH]; [reflexivity|].
  cbn [List.map sorted_desc]. rewrite IH. now apply insert_desc_scaled.
Qed.

Lemma ranking_scaled (k : Q) (d : dict) :
  0 < k ->
  List.map fst (sorted_desc (List.map (scaled k) d))
  = List.map fst (sorted_desc d).
Proof.
  intros Hk. rewrite sorted_desc_scaled, List.map_map by exact Hk.
  reflexivity.
Qed.

Lemma fraction_parse_scaled s evaluate_metadata doc (k : Q) (counts : dict) :
  0 < k ->
  evaluate_metadata doc = Ok (List.map (scaled k) counts) ->
  FractionEvaluationStrategy.min_fraction s = None ->
  FractionEvaluationStrategy.parse s evaluate_metadata doc
  = Ok {| concepts :=
            slice_to (FractionEvaluationStrategy.number_of_concepts s + 1)
              (List.map fst (sorted_desc counts)) |}.
Proof.
  intros Hk Heval Hnone. unfold FractionEvaluationStrategy.parse.
  rewrite Heval. cbn [mbind result_bind].
  unfold FractionEvaluationStrategy._create_result,
    FractionEvaluationStrategy._filter_concepts.
  rewrite Hnone, filter_all by reflexivity.
  now rewrite ranking_scaled.
Qed.



Lemma filter_map_scaled (f : str * Q -> bool) (k : Q) (d : dict) :
  List.filter f (List.map (scaled k) d)
  = List.map (scaled k) (List.filter (fun item => f (scaled k item)) d).
Proof.
  induction d as [|item d IH]; [reflexivity|].
  cbn [List.map List.filter]. rewrite IH.
  now destruct (f (scaled k item)).
Qed.

Lemma Qle_bool_mean_fraction (total n m c : Q) :
  0 < total -> 0 < n -> m == 1 / n ->
  Qle_bool m (c / total) = Qle_bool (total / n) c.
Proof.
  intros Ht Hn Hm. apply eq_true_iff_eq. rewrite !Qle_bool_iff, Hm.
  assert (~ total == 0) as Ht'
    by (intros E; rewrite E in Ht; now apply Qlt_irrefl in Ht).
  assert (~ n == 0) as Hn'
    by (intros E; rewrite E in Hn; now apply Qlt_irrefl in Hn).
  assert (1 / n == (total / n) / total) as -> by (field; now split).
  unfold Qdiv at 1 3. apply Qmult_le_r. now apply Qinv_lt_0_compat.
Qed.



(** ** Tightening the configuration shortens the result *)

Lemma insert_desc_front x (l : dict) :
  Forall (fun y => snd y <= snd x) l -> insert_desc x l = x :: l.
Proof.
  intros H. destruct H as [|y l Hy _]; [reflexivity|].
  cbn [insert_desc]. apply Qle_bool_iff in Hy. now rewrite Hy.
Qed.

Lemma insert_desc_filter (p : str * Q -> bool) x (l : dict) :
  StronglySorted ge_value l ->
  List.filter p (insert_desc x l)
  = if p x then insert_desc x (List.filter p l) else List.filter p l.
Proof.
  induction 1 as [|y l Hl IH Hy]; cbn [insert_desc List.filter].
  - now destruct (p x).
  - destruct (Qle_bool (snd y) (snd x)) eqn:E.
    + cbn [List.filter]. destruct (p x); [|reflexivity].
      destruct (p y).
      * cbn [insert_desc]. now rewrite E.
      * symmetry. apply insert_desc_front.
        apply Qle_bool_iff in E.
        apply List.Forall_forall. intros z Hz.
        apply filter_In in Hz as [Hz _].
        rewrite List.Forall_forall in Hy. specialize (Hy z Hz).
        unfold ge_value in Hy. now apply Qle_trans with (snd y).
    + cbn [List.filter]. rewrite IH.
      destruct (p y), (p x); try reflexivity.
      cbn [insert_desc]. now rewrite E.
Qed.

Lemma sorted_desc_filter (p : str * Q -> bool) (l : dict) :
  sorted_desc (List.filter p l) = List.filter p (sorted_desc l).
Proof.
  induction l as [|x l IH]; [reflexivity|].
  cbn [sorted_desc List.filter].
  rewrite insert_desc_filter by apply sorted_desc_sorted.
  destruct (p x); [|exact IH]. cbn [sorted_desc]. now rewrite IH.
Qed.

Lemma filter_none {A} (f : A -> bool) (l : list A) :
  (forall x, In x l -> f x = false) -> List.filter f l = [].
Proof.
  induction l as [|x l IH]; intros H; [reflexivity|].
  cbn. rewrite H by (cbn; auto). apply IH. intros; apply H; cbn; auto.
Qed.

Lemma at_least_prefix (m : Q) (l : dict) :
  StronglySorted ge_value l -> at_least m l `prefix_of` l.
Proof.
  unfold at_least. induction 1 as [|x l Hl IH Hx]; [reflexivity|].
  cbn [List.filter]. destruct (Qle_bool m (snd x)) eqn:E.
  - now apply prefix_cons.
  - rewrite filter_none; [apply prefix_nil|].
    intros y Hy.
    destruct (Qle_bool m (snd y)) eqn:E'; [|reflexivity].
    apply Qle_bool_iff in E'.
    rewrite List.Forall_forall in Hx. specialize (Hx y Hy).
    unfold ge_value in Hx.
    assert (Qle_bool m (snd x) = true); [|congruence].
    apply Qle_bool_iff. now apply Qle_trans with (snd y).
Qed.

Lemma prefix_map {A B} (f : A -> B) (l1 l2 : list A) :
  l1 `prefix_of` l2 -> List.map f l1 `prefix_of` List.map f l2.
Proof. intros [k ->]. exists (List.map f k). apply List.map_app. Qed.

Lemma prefix_take_le {A} (l1 l2 : list A) (n1 n2 : nat) :
  l1 `prefix_of` l2 -> (n1 <= n2)%nat -> take n1 l1 `prefix_of` take n2 l2.
Proof.
  intros [k ->] Hn. revert n1 n2 Hn.
  induction l1 as [|x l1 IH]; intros n1 n2 Hn.
  - rewrite take_nil. apply prefix_nil.
  - destruct n1 as [|n1]; [apply prefix_nil|].
    destruct n2 as [|n2]; [lia|].
    cbn. apply prefix_cons, IH. lia.
Qed.

Lemma fraction_filter_at_least s1 (m2 : Q) (d : dict) :
  reaches (FractionEvaluationStrategy.min_fraction s1) m2 ->
  at_least m2 d
  = at_least m2 (FractionEvaluationStrategy._filter_concepts s1 d).
Proof.
  intros Hm1. unfold at_least, FractionEvaluationStrategy._filter_concepts.
  induction d as [|item d IH]; [reflexivity|].
  cbn [List.filter].
  destruct (Qle_bool m2 (snd item)) eqn:E2.
  - assert (match FractionEvaluationStrategy.min_fraction s1 with
            | Some m => Qle_bool m (snd item)
            | None => true
            end = true) as ->.
    { destruct (FractionEvaluationStrategy.min_fraction s1) as [m1|];
        [|reflexivity].
      apply Qle_bool_iff. apply Qle_bool_iff in E2.
      apply Qle_trans with m2; [now apply Hm1|exact E2]. }
    cbn [List.filter]. now rewrite E2, IH.
  - destruct (match FractionEvaluationStrategy.min_fraction s1 with
              | Some m => Qle_bool m (snd item)
              | None => true
              end); [|exact IH].
    cbn [List.filter]. now rewrite E2.
Qed.

(** X11.  Raising [min_fraction] or lowering [number_of_concepts] (not
    below [-1]) only shortens the result of a fraction-based strategy: the
    result under the stricter configuration is a prefix of the result
    under the other. *)
Theorem fraction_create_result_monotone
    (s1 s2 : FractionEvaluationStrategy.self) (d : dict) :
  (-1 <= FractionEvaluationStrategy.number_of_concepts s2
      <= FractionEvaluationStrategy.number_of_concepts s1)%Z ->
  (forall m1,
      FractionEvaluationStrategy.min_fraction s1 = Some m1 ->
      exists m2,
        FractionEvaluationStrategy.min_fraction s2 = Some m2 /\ m1 <= m2) ->
  concepts (FractionEvaluationStrategy._create_result s2 d)
  `prefix_of` concepts (FractionEvaluationStrategy._create_result s1 d).
Proof.
  intros Hn Hm.
  unfold FractionEvaluationStrategy._create_result. cbn [concepts].
  unfold slice_to.
  destruct (Z.ltb_spec (FractionEvaluationStrategy.number_of_concepts s2 + 1) 0);
    [lia|].
  destruct (Z.ltb_spec (FractionEvaluationStrategy.number_of_concepts s1 + 1) 0);
    [lia|].
  apply prefix_take_le; [|lia]. apply prefix_map.
  destruct (FractionEvaluationStrategy.min_fraction s2) as [m2|] eqn:E2.
  - assert (FractionEvaluationStrategy._filter_concepts s2 d
            = at_least m2 (FractionEvaluationStrategy._filter_concepts s1 d))
      as ->.
    { rewrite <- fraction_filter_at_least.
      - unfold at_least, FractionEvaluationStrategy._filter_concepts.
        now rewrite E2.
      - intros m1 H1. destruct (Hm m1 H1) as (m2' & [= <-] & Hle).
        exact Hle. }
    unfold at_least. rewrite sorted_desc_filter.
    apply at_least_prefix, sorted_desc_sorted.
  - destruct (FractionEvaluationStrategy.min_fraction s1) as [m1|] eqn:E1.
    { destruct (Hm m1 eq_refl) as (m2 & [=] & _). }
    unfold FractionEvaluationStrategy._filter_concepts.
    now rewrite E1, E2.
Qed.

Lemma fraction_create_result_monotone_witness :
  concepts
    (FractionEvaluationStrategy._create_result
       {| FractionEvaluationStrategy.number_of_concepts := 1;
          FractionEvaluationStrategy.min_fraction := Some 3 |}
       counts_2_1_3_4_5)
  `prefix_of`
  concepts
    (FractionEvaluationStrategy._create_result
       {| FractionEvaluationStrategy.number_of_concepts := 10;
          FractionEvaluationStrategy.min_fraction := Some 2 |}
       counts_2_1_3_4_5).
Proof.
  apply (fraction_create_result_monotone
           {| FractionEvaluationStrategy.number_of_concepts := 10;
              FractionEvaluationStrategy.min_fraction := Some 2 |}
           {| FractionEvaluationStrategy.number_of_concepts := 1;
              FractionEvaluationStrategy.min_fraction := Some 3 |}
           counts_2_1_3_4_5).
  - cbn. lia.
  - intros m1 [= <-]. exists 3. split; [reflexivity|].
    vm_compute. discriminate.
Defined.

(** ** The boost *)

Lemma startswith_iff (s p : str) :
  startswith s p = true <-> exists rest, s = p ++ rest.
Proof.
  revert s. induction p as [|c p IH]; intros s; cbn.
  - split; [eauto|reflexivity].
  - destruct s as [|c' s].
    + split; [discriminate|intros [rest [=]]].
    + rewrite andb_true_iff, N.eqb_eq, IH. split.
      * intros [-> [rest ->]]. now exists rest.
      * intros [rest [= -> ->]]. eauto.
Qed.

Lemma str_contains_iff (s needle : str) :
  str_contains s needle = true <->
  exists before after, s = before ++ needle ++ after.
Proof.
  induction s as [|c s IH]; cbn; rewrite orb_true_iff.
  - rewrite startswith_iff. split.
    + intros [[rest H]|[=]]. exists [], rest. exact H.
    + intros ([|? before] & after & H); [|discriminate]. left. eauto.
  - rewrite startswith_iff, IH. split.
    + intros [[rest H]|(before & after & ->)].
      * exists [], rest. exact H.
      * now exists (c :: before), after.
    + intros ([|c' before] & after & H).
      * left. eauto.
      * injection H as <- ->. right. eauto.
Qed.

(** X12.  The boosted strategy raises the count of a concept to the boost
    exactly when the URI occurs in the text as a contiguous run of
    characters, anywhere, inside markup and attributes included; every
    other concept keeps its count. *)
Theorem concept_value_boosts_substrings
    (s : ConceptFilteredByFractionAverageMentionsBoostedStrategy.self)
    (doc : DocumentMetadata) (concept_name : str) (count : Q) :
  ((exists before after, text doc = before ++ concept_name ++ after) ->
   ConceptFilteredByFractionAverageMentionsBoostedStrategy.concept_value
     s doc concept_name count
   = py_pow count
       (ConceptFilteredByFractionAverageMentionsBoostedStrategy.MENTIONED_CONCEPT_BOOST s))
  /\ (~ (exists before after, text doc = before ++ concept_name ++ after) ->
      ConceptFilteredByFractionAverageMentionsBoostedStrategy.concept_value
        s doc concept_name count
      = Ok count).
Proof.
  unfold ConceptFilteredByFractionAverageMentionsBoostedStrategy.concept_value.
  rewrite <- str_contains_iff.
  destruct (str_contains (text doc) concept_name); split; intros H;
    try reflexivity; try discriminate.
  now contradiction H.
Qed.

Lemma Qpower_ge_base (c : Q) (e : Z) :
  1 <= c -> (1 <= e)%Z -> c <= c ^ e.
Proof.
  intros Hc He.
  assert (0 < c) as Hpos by (apply Qlt_le_trans with 1; [reflexivity|exact Hc]).
  assert (~ c == 0) as Hnz
    by (intros E; rewrite E in Hpos; now apply Qlt_irrefl in Hpos).
  replace e with (1 + (e - 1))%Z by lia.
  rewrite Qpower_plus by exact Hnz.
  assert (c ^ 1 == c) as -> by reflexivity.
  rewrite <- (Qmult_1_r c) at 1.
  apply Qmult_le_l; [exact Hpos|].
  apply Qpower_1_le; [exact Hc|lia].
Qed.

Lemma boosted_score_ge_count s text_ concept_name (count : Q) :
  (1 <= ConceptFilteredByFractionAverageMentionsBoostedStrategy.MENTIONED_CONCEPT_BOOST s)%Z ->
  count == 0 \/ 1 <= count ->
  count <= boosted_score s text_ concept_name count.
Proof.
  intros He Hc. unfold boosted_score.
  destruct (str_contains text_ concept_name); [|apply Qle_refl].
  destruct Hc as [Hc|Hc].
  - rewrite Hc, Qpower_0 by lia. apply Qle_refl.
  - now apply Qpower_ge_base.
Qed.



Lemma concept_value_boosts_substrings_witness :
  ConceptFilteredByFractionAverageMentionsBoostedStrategy.concept_value
    default_boost five_concepts_mentioned (uri "2") 2
  = py_pow 2 2.
Proof.
  apply (concept_value_boosts_substrings default_boost
           five_concepts_mentioned (uri "2") 2).
  exists (of_string "<sentence id='12345'>Das ist ein annotierter Text.</sentence><sentence>Darin kommt ein <em class='animal_fauna' biofid-uri-0='"),
    (of_string "'>" ++ Waschbaer ++ of_string "</em> vor.</sentence>").
  vm_compute. reflexivity.
Defined.



(** ** The tokens *)

Lemma re_word_split_None_not_space c (s : str) :
  ConceptFractionInAllWordsStrategy.re_word_split (c :: s) = None ->
  is_space c = false.
Proof.
  unfold ConceptFractionInAllWordsStrategy.re_word_split, alt, space.
  destruct (lit _ _ (c :: s)); [discriminate|].
  now destruct (is_space c).
Qed.

Lemma split_from_no_space (skip : nat) (s : str) :
  Forall (Forall (fun c => is_space c = false))
    (split_from ConceptFractionInAllWordsStrategy.re_word_split skip s).
Proof.
  revert skip. induction s as [|c s IH]; intros skip; cbn [split_from].
  - repeat constructor.
  - destruct skip as [|n]; [|apply IH].
    destruct (ConceptFractionInAllWordsStrategy.re_word_split (c :: s))
      as [rest|] eqn:E.
    + constructor; [constructor|apply IH].
    + specialize (IH 0%nat).
      destruct (split_from _ 0 s) as [|p ps]; [repeat constructor|].
      * now apply re_word_split_None_not_space in E.
      * apply Forall_cons in IH as [Hp Hps].
        constructor; [|exact Hps].
        constructor; [|exact Hp].
        now apply re_word_split_None_not_space in E.
Qed.

Lemma split_from_sublist re (skip : nat) (s : str) :
  concat (split_from re skip s) `sublist_of` s.
Proof.
  revert skip. induction s as [|c s IH]; intros skip; cbn [split_from].
  - reflexivity.
  - destruct skip as [|n]; [|apply sublist_cons, IH].
    destruct (re (c :: s)) as [rest|].
    + cbn [concat app]. apply sublist_cons, IH.
    + specialize (IH 0%nat).
      destruct (split_from re 0 s) as [|p ps].
      * cbn. now apply sublist_skip.
      * cbn [concat app] in *. now apply sublist_skip.
Qed.

Lemma concat_filter_truthy (l : list str) :
  concat (List.filter truthy l) = concat l.
Proof.
  induction l as [|w l IH]; [reflexivity|].
  cbn [List.filter]. destruct w as [|c w]; cbn [truthy]; [exact IH|].
  cbn [concat]. now rewrite IH.
Qed.

Lemma length_remove_dups_le (l : list str) :
  (length (remove_dups l) <= length l)%nat.
Proof.
  induction l as [|w l IH]; [reflexivity|].
  cbn. destruct (decide_rel elem_of w l); cbn; lia.
Qed.

(** X15.  Every token that
    [ConceptFractionInAllWordsStrategy.evaluate_metadata] counts is
    non-empty and free of whitespace, the tokens are made of characters of
    the text after the substitution, in their order, and the denominator
    is at most the number of tokens. *)
Theorem tokens_are_words (text_ : str) :
  Forall (fun w => w <> [] /\ Forall (fun c => is_space c = false) w)
    (ConceptFractionInAllWordsStrategy.tokens text_)
  /\ concat (ConceptFractionInAllWordsStrategy.tokens text_)
     `sublist_of` ConceptFractionInAllWordsStrategy.replaced_text text_
  /\ (ConceptFractionInAllWordsStrategy.word_count text_
      <= length (ConceptFractionInAllWordsStrategy.tokens text_))%nat.
Proof.
  unfold ConceptFractionInAllWordsStrategy.tokens, re_split.
  split; [|split].
  - apply List.Forall_forall. intros w Hw.
    apply filter_In in Hw as [Hw Ht]. split.
    + now destruct w.
    + pose proof (split_from_no_space 0
                    (ConceptFractionInAllWordsStrategy.replaced_text text_))
        as H.
      rewrite List.Forall_forall in H. now apply H.
  - rewrite concat_filter_truthy. apply split_from_sublist.
  - rewrite word_count_distinct.
    unfold ConceptFractionInAllWordsStrategy.tokens, re_split.
    apply length_remove_dups_le.
Qed.

(** ** The substitution: greedy, and bounded *)

Lemma re_extract_annotated_words_match_greedy between surface post :
  between <> [] ->
  forallb is_dot between = true ->
  surface <> [] ->
  forallb (fun c => is_dot c && (negb (c =? 60)%N && negb (c =? 62)%N))
    surface = true ->
  str_contains post (of_string "</em>") = false ->
  ConceptFractionInAllWordsStrategy.re_extract_annotated_words
    (of_string "<em" ++ between ++ of_string ">" ++ surface
     ++ of_string "</em>" ++ post)
  = Some post.
Proof.
  intros Hbetween Hdots Hsurface Hschars Hpost.
  unfold ConceptFractionInAllWordsStrategy.re_extract_annotated_words.
  rewrite lit_app.
  destruct between as [|c between]; [contradiction|].
  cbn in Hdots. apply andb_true_iff in Hdots as [Hdot Hdots].
  cbn [app dot_plus_greedy]. rewrite Hdot.
  apply dot_star_greedy_skip; [exact Hdots|].
  change (of_string ">" ++ surface ++ of_string "</em>" ++ post)
    with (62%N :: surface ++ of_string "</em>" ++ post).
  cbn [dot_star_greedy is_dot N.eqb negb Pos.eqb].
  rewrite dot_star_greedy_None by now apply tag_end_None_behind.
  change (62%N :: surface ++ of_string "</em>" ++ post)
    with (of_string ">" ++ surface ++ of_string "</em>" ++ post).
  rewrite lit_app. now apply surface_text_match.
Qed.

(** X16.  The substitution is greedy: on a line, everything from the first
    [<em] to the last annotated surface text and its [</em>] becomes one
    placeholder, whatever lies between - other spans, tags and the words
    between them included. *)
Theorem replaced_text_swallows_between
    (text_ pre between surface post : str) :
  text_ = pre ++ of_string "<em" ++ between ++ of_string ">" ++ surface
          ++ of_string "</em>" ++ post ->
  str_contains pre (of_string "<em") = false ->
  between <> [] ->
  forallb is_dot between = true ->
  surface <> [] ->
  forallb (fun c => is_dot c && (negb (c =? 60)%N && negb (c =? 62)%N))
    surface = true ->
  str_contains post (of_string "</em>") = false ->
  ConceptFractionInAllWordsStrategy.replaced_text text_
  = pre ++ of_string "foo" ++ post.
Proof.
  intros -> Hpre Hbetween Hdots Hsurface Hschars Hpost.
  unfold ConceptFractionInAllWordsStrategy.replaced_text, re_sub.
  cbn [re_DOTALL].
  set (m := of_string "<em" ++ between ++ of_string ">" ++ surface
            ++ of_string "</em>").
  replace (of_string "<em" ++ between ++ of_string ">" ++ surface
           ++ of_string "</em>" ++ post) with (m ++ post)
    by (unfold m; now rewrite <- !app_assoc).
  assert (forall rest, m ++ rest
          = of_string "<em" ++ between ++ of_string ">" ++ surface
            ++ of_string "</em>" ++ rest) as Em
    by (intros; unfold m; now rewrite <- !app_assoc).
  apply sub_from_single; try discriminate.
  - intros t Hne Ht. apply lit_None. rewrite Em.
    now apply (startswith_em_before pre).
  - rewrite Em. now apply re_extract_annotated_words_match_greedy.
  - now apply re_extract_annotated_words_None.
Qed.

Lemma replaced_text_swallows_between_witness :
  ConceptFractionInAllWordsStrategy.replaced_text two_spans_text
  = [] ++ of_string "foo" ++ [].
Proof.
  apply (replaced_text_swallows_between two_spans_text []
           (of_string " id='1'>Procyon</em> und <em id='2'")
           (of_string "Lotor") []).
  - vm_compute. reflexivity.
  - reflexivity.
  - discriminate.
  - vm_compute. reflexivity.
  - discriminate.
  - vm_compute. reflexivity.
  - reflexivity.
Defined.

Lemma sub_from_exhausted re repl (s : str) :
  sub_from re repl (Some 0%nat) 0 s = s.
Proof.
  induction s as [|c s IH]; [reflexivity|].
  cbn [sub_from]. now rewrite IH.
Qed.

Lemma tag_end_greedy_None_app (a s : str) :
  forallb (fun c => negb (c =? 62)%N) a = true ->
  dot_star_greedy
    (lit (of_string ">") (dot_plus_lazy (lit (of_string "</em>") Some))) s
  = None ->
  dot_star_greedy
    (lit (of_string ">") (dot_plus_lazy (lit (of_string "</em>") Some)))
    (a ++ s)
  = None.
Proof.
  intros Ha Hs. induction a as [|c a IH]; [exact Hs|].
  cbn in Ha. apply andb_true_iff in Ha as [Hc Ha].
  cbn [app dot_star_greedy]. rewrite (IH Ha).
  rewrite tag_end_None_other by exact Hc. now destruct (is_dot c).
Qed.

Lemma re_extract_annotated_words_match_line span (rest : str) :
  well_formed_span span = true ->
  ConceptFractionInAllWordsStrategy.re_extract_annotated_words
    (span_line span ++ rest)
  = Some (10%N :: rest).
Proof.
  destruct span as [attrs surface]. unfold well_formed_span, span_line.
  cbn [fst snd]. intros H.
  apply andb_true_iff in H as [H Hschars].
  apply andb_true_iff in H as [H Hsurface].
  apply andb_true_iff in H as [Hattrs Hachars].
  rewrite <- !app_assoc.
  unfold ConceptFractionInAllWordsStrategy.re_extract_annotated_words.
  rewrite lit_app.
  destruct attrs as [|c attrs]; [discriminate|].
  cbn in Hachars. apply andb_true_iff in Hachars as [Hc Hachars].
  apply andb_true_iff in Hc as [Hdot _].
  cbn [app dot_plus_greedy]. rewrite Hdot.
  apply dot_star_greedy_skip.
  { revert Hachars. apply forallb_impl. intros c' Hc'.
    now apply andb_true_iff in Hc' as [Hc' _]. }
  change (of_string ">" ++ surface ++ of_string "</em>" ++ 10%N :: rest)
    with (62%N :: surface ++ of_string "</em>" ++ 10%N :: rest).
  cbn [dot_star_greedy is_dot N.eqb negb Pos.eqb].
  rewrite tag_end_greedy_None_app.
  - change (62%N :: surface ++ of_string "</em>" ++ 10%N :: rest)
      with (of_string ">" ++ surface ++ of_string "</em>" ++ 10%N :: rest).
    rewrite lit_app. apply surface_text_match; [|exact Hschars].
    now destruct surface.
  - revert Hschars. apply forallb_impl. intros c' Hc'.
    apply andb_true_iff in Hc' as [_ Hc'].
    now apply andb_true_iff in Hc' as [_ Hc'].
  - change (of_string "</em>" ++ 10%N :: rest)
      with ([60; 47; 101; 109]%N ++ 62%N :: 10%N :: rest).
    apply tag_end_greedy_None_app; [reflexivity|].
    reflexivity.
Qed.

Lemma sub_from_span_lines (spans : list (str * str)) (rest : str) :
  forallb well_formed_span spans = true ->
  sub_from ConceptFractionInAllWordsStrategy.re_extract_annotated_words
    (of_string "foo") (Some (length spans)) 0
    (concat (List.map span_line spans) ++ rest)
  = concat (List.map (fun _ => of_string "foo" ++ [10%N]) spans) ++ rest.
Proof.
  induction spans as [|span spans IH]; intros H.
  - apply sub_from_exhausted.
  - cbn in H. apply andb_true_iff in H as [Hspan Hspans].
    specialize (IH Hspans).
    cbn [List.map concat length].
    set (tail := concat (List.map span_line spans) ++ rest) in *.
    set (body := of_string "<em" ++ fst span ++ of_string ">" ++ snd span
                 ++ of_string "</em>").
    assert (forall X, span_line span ++ X = body ++ 10%N :: X) as Eline.
    { intros X. unfold span_line, body. now rewrite <- !app_assoc. }
    pose proof (re_extract_annotated_words_match_line span tail Hspan)
      as Hmatch.
    rewrite Eline in Hmatch.
    rewrite <- !app_assoc. fold tail. rewrite Eline.
    rewrite (sub_from_match _ _ _ body (10%N :: tail));
      [|discriminate|discriminate|exact Hmatch].
    cbn [fmap option_fmap option_map pred].
    f_equal. cbn [app sub_from].
    assert (ConceptFractionInAllWordsStrategy.re_extract_annotated_words
              (10%N :: tail) = None) as -> by reflexivity.
    rewrite IH. now destruct (length spans).
Qed.

(** X17.  The substitution stops after sixteen replacements
    ([re.DOTALL], passed as [count]): of a text that starts with sixteen
    lines of one annotated span each, those sixteen spans become
    placeholders and everything behind them is left as it is, further
    spans included. *)
Theorem replaced_text_stops_after_sixteen
    (spans : list (str * str)) (rest : str) :
  forallb well_formed_span spans = true ->
  length spans = 16%nat ->
  ConceptFractionInAllWordsStrategy.replaced_text
    (concat (List.map span_line spans) ++ rest)
  = concat (List.map (fun _ => of_string "foo" ++ [10%N]) spans) ++ rest.
Proof.
  intros Hspans Hlen.
  unfold ConceptFractionInAllWordsStrategy.replaced_text, re_sub,
    re_DOTALL.
  cbv iota. rewrite <- Hlen. now apply sub_from_span_lines.
Qed.

Lemma replaced_text_stops_after_sixteen_witness :
  ConceptFractionInAllWordsStrategy.replaced_text
    (concat
       (List.map span_line
          (List.repeat (of_string " id='1'", of_string "Lotor") 16))
     ++ span_line (of_string " id='2'", of_string "Procyon"))
  = concat
      (List.map (fun _ => of_string "foo" ++ [10%N])
         (List.repeat (of_string " id='1'", of_string "Lotor") 16))
    ++ span_line (of_string " id='2'", of_string "Procyon").
Proof.
  apply (replaced_text_stops_after_sixteen
           (List.repeat (of_string " id='1'", of_string "Lotor") 16)
           (span_line (of_string " id='2'", of_string "Procyon"))).
  - vm_compute. reflexivity.
  - reflexivity.
Defined.

(** ** The denominator is bounded by the text *)

Lemma sub_from_length re repl limit (skip : nat) (s : str) :
  shrinks (length repl) re ->
  (skip <= length s)%nat ->
  (length (sub_from re repl limit skip s) + skip <= length s)%nat.
Proof.
  intros Hre. revert limit skip.
  induction s as [|c s IH]; intros limit skip Hskip; cbn [sub_from length].
  - cbn in Hskip. lia.
  - destruct skip as [|n].
    + assert (length (c :: sub_from re repl limit 0 s) + 0
              <= S (length s))%nat as Hcopy.
      { cbn [length]. specialize (IH limit 0%nat ltac:(lia)). lia. }
      destruct (re (c :: s)) as [rest|] eqn:E.
      * destruct limit as [[|k]|]; [exact Hcopy|..];
          rewrite length_app;
          apply Hre in E; cbn [length] in E;
          match goal with
          | |- context [sub_from re repl ?l ?k s] =>
              specialize (IH l k ltac:(lia))
          end; lia.
      * now destruct limit as [[|k]|].
    + cbn [length] in Hskip. specialize (IH limit n ltac:(lia)). lia.
Qed.

Lemma length_concat_ge (l : list str) :
  Forall (fun w => w <> []) l -> (length l <= length (concat l))%nat.
Proof.
  induction 1 as [|w l Hw _ IH]; [reflexivity|].
  cbn [concat length]. rewrite length_app.
  destruct w; [contradiction|cbn; lia].
Qed.

(** X18.  The denominator of the fraction-in-all-words strategy never
    exceeds the number of characters of the text: the substitution does
    not lengthen the text, and the tokens are non-empty pieces of it. *)
Theorem word_count_at_most_text_length (text_ : str) :
  (length (ConceptFractionInAllWordsStrategy.replaced_text text_)
   <= length text_)%nat
  /\ (ConceptFractionInAllWordsStrategy.word_count text_
      <= length text_)%nat.
Proof.
  assert (length (ConceptFractionInAllWordsStrategy.replaced_text text_)
          <= length text_)%nat as Hsub.
  { unfold ConceptFractionInAllWordsStrategy.replaced_text, re_sub.
    pose proof (sub_from_length
                  ConceptFractionInAllWordsStrategy.re_extract_annotated_words
                  (of_string "foo")
                  (match re_DOTALL with
                   | O => None
                   | S _ => Some re_DOTALL
                   end) 0 text_) as H.
    rewrite Nat.add_0_r in H. apply H; [|lia].
    apply (shrinks_le (2 + 1 + 3)); [cbn; lia|].
    unfold ConceptFractionInAllWordsStrategy.re_extract_annotated_words.
    apply (shrinks_lit (of_string "<em")), shrinks_dot_plus_greedy,
      (shrinks_lit (of_string ">") 1), shrinks_dot_plus_lazy,
      (shrinks_le 5 0); [lia|].
    apply (shrinks_lit (of_string "</em>") 0), shrinks_Some. }
  split; [exact Hsub|].
  rewrite word_count_distinct.
  etransitivity; [apply length_remove_dups_le|].
  etransitivity; [apply length_concat_ge|].
  - unfold ConceptFractionInAllWordsStrategy.tokens.
    apply List.Forall_forall. intros w Hw.
    apply filter_In in Hw as [_ Hw]. now destruct w.
  - etransitivity; [|exact Hsub].
    unfold ConceptFractionInAllWordsStrategy.tokens, re_split.
    rewrite concat_filter_truthy.
    apply sublist_length, split_from_sublist.
Qed.

(** X19.  For a [number_of_concepts] of at least [-1], the result of a
    fraction-based strategy is the head of a ranking of the concepts that
    pass [min_fraction]: the ranking lists the passing items, each as
    often as the scores hold it, by descending score, and items of equal
    score in the order of the scores dict. *)
Theorem fraction_create_result_ranking
    (s : FractionEvaluationStrategy.self) (d : dict) :
  (-1 <= FractionEvaluationStrategy.number_of_concepts s)%Z ->
  exists ranking,
    concepts (FractionEvaluationStrategy._create_result s d)
    = take (Z.to_nat (FractionEvaluationStrategy.number_of_concepts s + 1))
        (List.map fst ranking)
    /\ Permutation ranking (FractionEvaluationStrategy._filter_concepts s d)
    /\ StronglySorted ge_value ranking
    /\ forall q,
        of_value q ranking
        = of_value q (FractionEvaluationStrategy._filter_concepts s d).
Proof.
  intros Hn.
  exists (sorted_desc (FractionEvaluationStrategy._filter_concepts s d)).
  split; [|split; [apply sorted_desc_Permutation|
                   split; [apply sorted_desc_sorted|]]].
  - unfold FractionEvaluationStrategy._create_result, slice_to.
    cbn [concepts].
    destruct (Z.ltb_spec
                (FractionEvaluationStrategy.number_of_concepts s + 1) 0);
      [lia|reflexivity].
  - intros q. apply sorted_desc_stable.
Qed.

Lemma fraction_create_result_ranking_witness :
  exists ranking,
    concepts
      (FractionEvaluationStrategy._create_result (fraction_self (Some 2))
         counts_2_1_3_4_5)
    = take (Z.to_nat (10 + 1)) (List.map fst ranking)
    /\ Permutation ranking
         (FractionEvaluationStrategy._filter_concepts
            (fraction_self (Some 2)) counts_2_1_3_4_5)
    /\ StronglySorted ge_value ranking
    /\ forall q,
        of_value q ranking
        = of_value q
            (FractionEvaluationStrategy._filter_concepts
               (fraction_self (Some 2)) counts_2_1_3_4_5).
Proof.
  apply (fraction_create_result_ranking (fraction_self (Some 2))
           counts_2_1_3_4_5).
  cbn. lia.
Defined.
